(** * Proquint: a shallow embedding of [proquint.py] and its properties

    The Python class [Proquint] encodes 16-bit words as pronounceable
    five-letter tokens ("CVCVC") and chains them over byte buffers.

    Conventions of the embedding:
    - a Python [int] is a [Z]; [&], [|], [<<], [>>] are [Z.land], [Z.lor],
      [Z.shiftl], [Z.shiftr] (same two's-complement reading of negatives);
    - a Python [str] is a [string]; Python has no character type, a [str]
      of length one (what iterating over a [str] yields) is an [ascii];
    - a Python [bytes] is a [list byte];
    - an exception is a value of [exn]; a computation that can raise
      returns an [outcome]; [assert] statements are executed (the
      interpreter does not run with [-O]). *)

From Stdlib Require Import ZArith List Bool Lia.
From Stdlib.Strings Require Import String Ascii Byte.
Import ListNotations.

Local Open Scope string_scope.
Local Open Scope Z_scope.

(** ** Exceptions and the error monad *)

(** The three [assert] statements of the source, by the place they stand. *)
Inductive assert_site : Type :=
| assert_data_even         (* encode:        assert len(data) % 2 == 0 *)
| assert_proquint_length   (* decode_uint16: assert len(proquint) == 5 *)
| assert_proquint_symbols. (* decode_uint16: assert all(c in ... for c in proquint) *)

Inductive exn : Type :=
| AssertionError (site : assert_site)
| ValueError_substring_not_found   (* str.index *)
| ValueError_empty_separator       (* str.split *)
| IndexError                       (* str.__getitem__ *)
| KeyError                         (* dict.__getitem__ *)
| OverflowError.                   (* int.to_bytes *)

Inductive outcome (A : Type) : Type :=
| Ok (a : A)
| Raise (e : exn).

Arguments Ok {A} a.
Arguments Raise {A} e.

Definition bind {A B : Type} (m : outcome A) (k : A -> outcome B) : outcome B :=
  match m with
  | Ok a => k a
  | Raise e => Raise e
  end.

Notation "x <- m ;; k" := (bind m (fun x => k))
  (at level 61, m at next level, right associativity).
Notation "' p <- m ;; k" := (bind m (fun x => let p := x in k))
  (at level 61, p pattern, m at next level, right associativity).

Definition py_assert (b : bool) (site : assert_site) : outcome unit :=
  if b then Ok tt else Raise (AssertionError site).

(** A [for] loop whose body may raise, threading the loop-carried state. *)
Fixpoint for_each {A S : Type} (body : S -> A -> outcome S) (xs : list A) (s : S)
  : outcome S :=
  match xs with
  | [] => Ok s
  | x :: xs' => s' <- body s x ;; for_each body xs' s'
  end.

(** ** The Python built-ins the source calls *)

Module Py.

(** [len(s)] *)
Definition len (s : string) : Z := Z.of_nat (String.length s).

(** iteration over a [str] *)
Definition iter (s : string) : list ascii := list_ascii_of_string s.

(** [reversed(s)], and [''.join(reversed(s))] *)
Definition reversed (s : string) : list ascii := rev (iter s).
Definition join_chars (cs : list ascii) : string := string_of_list_ascii cs.

(** [s[i]]: a negative index counts from the end. *)
Definition getitem (s : string) (i : Z) : outcome ascii :=
  let j := if i <? 0 then i + len s else i in
  if j <? 0 then Raise IndexError
  else match String.get (Z.to_nat j) s with
       | Some c => Ok c
       | None => Raise IndexError
       end.

(** [c in s] for [c] of length one *)
Fixpoint contains (s : string) (c : ascii) : bool :=
  match s with
  | EmptyString => false
  | String d s' => if Ascii.eqb c d then true else contains s' c
  end.

(** [s.index(c)] for [c] of length one: the first position of [c]. *)
Fixpoint find_from (s : string) (c : ascii) (i : Z) : option Z :=
  match s with
  | EmptyString => None
  | String d s' => if Ascii.eqb c d then Some i else find_from s' c (i + 1)
  end.

Definition index (s : string) (c : ascii) : outcome Z :=
  match find_from s c 0 with
  | Some i => Ok i
  | None => Raise ValueError_substring_not_found
  end.

(** [sep.join(parts)] *)
Definition join (sep : string) (parts : list string) : string :=
  String.concat sep parts.

(** [s.split(sep)]: the text is scanned from the left; wherever [sep]
    starts, the piece read so far is closed and the scan resumes after
    the separator ([skip] counts the characters of a matched separator
    still to pass). An empty separator raises [ValueError]. *)
Fixpoint split_scan (sep : string) (skip : nat) (cur : string) (s : string)
  : list string :=
  match s with
  | EmptyString => [cur]
  | String c s' =>
      match skip with
      | S k => split_scan sep k cur s'
      | O =>
          if String.prefix sep s
          then cur :: split_scan sep (Nat.pred (String.length sep)) "" s'
          else split_scan sep O (cur ++ String c "") s'
      end
  end.

Definition split (s sep : string) : outcome (list string) :=
  match sep with
  | EmptyString => Raise ValueError_empty_separator
  | _ => Ok (split_scan sep O "" s)
  end.

(** [data[i:j]] for [0 <= i <= j] *)
Definition slice {A : Type} (data : list A) (i j : nat) : list A :=
  firstn (j - i) (skipn i data).

(** [range(0, n, 2)] *)
Definition range_by_2 (n : nat) : list nat :=
  map (fun k => 2 * k)%nat (seq 0 (Nat.div2 (n + 1))).

(** [int.from_bytes(chunk, "big")] *)
Definition byte_val (b : byte) : Z := Z.of_N (Byte.to_N b).

Definition from_bytes_big (chunk : list byte) : Z :=
  fold_left (fun acc b => acc * 256 + byte_val b) chunk 0.

(** [n.to_bytes(length, byteorder="big")]: raises [OverflowError] when
    [n] is negative or does not fit. *)
Fixpoint to_bytes_little (length : nat) (n : Z) : list byte * Z :=
  match length with
  | O => ([], n)
  | S k =>
      let b := match Byte.of_N (Z.to_N (n mod 256)) with
               | Some b => b
               | None => x00
               end in
      let (bs, rest) := to_bytes_little k (n / 256) in
      (b :: bs, rest)
  end.

Definition to_bytes_big (n : Z) (length : nat) : outcome (list byte) :=
  if n <? 0 then Raise OverflowError
  else let (bs, rest) := to_bytes_little length n in
       if rest =? 0 then Ok (rev bs) else Raise OverflowError.

End Py.

(** ** The class [Proquint] *)

(** [ALPHABET]: construction key -> (alphabet, number of bits covered).
    A [dict] keeps its insertion order, which [values()] follows. *)
Definition ALPHABET : list (ascii * (string * Z)) :=
  [ ("C"%char, ("bdfghjklmnprstvz", 4));
    ("V"%char, ("aiou", 2)) ].

Definition CONSTRUCTION : string := "CVCVC".

(** [ALPHABET[position]] *)
Fixpoint dict_get {V : Type} (d : list (ascii * V)) (k : ascii) : outcome V :=
  match d with
  | [] => Raise KeyError
  | (k', v) :: d' => if Ascii.eqb k k' then Ok v else dict_get d' k
  end.

(** [''.join(a[0] for a in Proquint.ALPHABET.values())] *)
Definition all_symbols : string :=
  Py.join "" (map (fun kv => fst (snd kv)) ALPHABET).

(** The body of the loop of [encode_uint16]; the state is [(result, double)]. *)
Definition encode_step (st : string * Z) (position : ascii) : outcome (string * Z) :=
  let (result, double) := st in
  '(alphabet, bits) <- dict_get ALPHABET position ;;
  c <- Py.getitem alphabet (Z.land double (Z.pow 2 bits - 1)) ;;
  Ok (result ++ String c "", Z.shiftr double bits).

Definition encode_uint16 (double : Z) : outcome string :=
  st <- for_each encode_step (Py.reversed CONSTRUCTION) ("", double) ;;
  Ok (Py.join_chars (Py.reversed (fst st))).

(** The list comprehension [[data[i:i+2] for i in range(0, len(data), 2)]]. *)
Definition chunks (data : list byte) : list (list byte) :=
  map (fun i => Py.slice data i (i + 2)) (Py.range_by_2 (List.length data)).

Definition encode_chunk (proquints : list string) (chunk : list byte)
  : outcome (list string) :=
  let uint16 := Py.from_bytes_big chunk in
  p <- encode_uint16 uint16 ;;
  Ok (proquints ++ [p])%list.

Definition encode (data : list byte) (sep : string) : outcome string :=
  _ <- py_assert (Z.of_nat (List.length data) mod 2 =? 0) assert_data_even ;;
  proquints <- for_each encode_chunk (chunks data) [] ;;
  Ok (Py.join sep proquints).

(** The body of the loop of [decode_uint16] over [zip(CONSTRUCTION, proquint)]. *)
Definition decode_step (result : Z) (pc : ascii * ascii) : outcome Z :=
  let (position, char) := pc in
  '(alphabet, bits) <- dict_get ALPHABET position ;;
  let result := Z.shiftl result bits in
  i <- Py.index alphabet char ;;
  Ok (Z.lor result i).

Definition decode_uint16 (proquint : string) : outcome Z :=
  _ <- py_assert (Py.len proquint =? 5) assert_proquint_length ;;
  _ <- py_assert (forallb (Py.contains all_symbols) (Py.iter proquint))
         assert_proquint_symbols ;;
  for_each decode_step (combine (Py.iter CONSTRUCTION) (Py.iter proquint)) 0.

Definition decode_token (result : list byte) (proquint : string)
  : outcome (list byte) :=
  n <- decode_uint16 proquint ;;
  bs <- Py.to_bytes_big n 2 ;;
  Ok (result ++ bs)%list.

Definition decode (proquints : string) (sep : string) : outcome (list byte) :=
  tokens <- Py.split proquints sep ;;
  for_each decode_token tokens [].

(** The default separator of [encode] and [decode]. *)
Definition default_sep : string := "-".

(** The vectors of [run_tests]: a proquint text and the packed form of
    the IPv4 address it stands for. *)
Definition test_vectors : list (string * list byte) :=
  [
    ("lusab-babad", [x7f; x00; x00; x01]);   (* 127.0.0.1 *)
    ("gutih-tugad", [x3f; x54; xdc; xc1]);   (* 63.84.220.193 *)
    ("gutuk-bisog", [x3f; x76; x07; x23]);   (* 63.118.7.35 *)
    ("mudof-sakat", [x8c; x62; xc1; x8d]);   (* 140.98.193.141 *)
    ("haguz-biram", [x40; xff; x06; xc8]);   (* 64.255.6.200 *)
    ("mabiv-gibot", [x80; x1e; x34; x2d]);   (* 128.30.52.45 *)
    ("natag-lisaf", [x93; x43; x77; x02]);   (* 147.67.119.2 *)
    ("tibup-zujah", [xd4; x3a; xfd; x44]);   (* 212.58.253.68 *)
    ("tobog-higil", [xd8; x23; x44; xd7]);   (* 216.35.68.215 *)
    ("todah-vobij", [xd8; x44; xe8; x15]);   (* 216.68.232.21 *)
    ("sinid-makam", [xc6; x51; x81; x88]);   (* 198.81.129.136 *)
    ("budov-kuras", [x0c; x6e; x6e; xcc])   (* 12.110.110.204 *) ].

Definition outcome_is {A : Type} (eqb : A -> A -> bool) (m : outcome A) (a : A)
  : bool :=
  match m with
  | Ok a' => eqb a' a
  | Raise _ => false
  end.

Definition bytes_eqb (l1 l2 : list byte) : bool :=
  if list_eq_dec Byte.byte_eq_dec l1 l2 then true else false.

(** [run_tests]: every [assert] of the function holds. *)
Definition run_tests : bool :=
  forallb (fun v => outcome_is String.eqb (encode (snd v) default_sep) (fst v))
    test_vectors &&
  forallb (fun v => outcome_is bytes_eqb (decode (fst v) default_sep) (snd v))
    test_vectors.

(** ** Vocabulary of the statements *)

Definition consonants : string := "bdfghjklmnprstvz".
Definition vowels : string := "aiou".

(** The error taxonomy of the specification, read on the exceptions the
    code raises. A symbol outside both alphabets trips the second
    assertion of [decode_uint16]; a symbol of the wrong alphabet passes it
    and makes the lookup [alphabet.index(char)] raise. *)
Definition InvalidInputLength (e : exn) : Prop :=
  e = AssertionError assert_data_even.

Definition InvalidLength (e : exn) : Prop :=
  e = AssertionError assert_proquint_length.

Definition InvalidSymbol (e : exn) : Prop :=
  e = AssertionError assert_proquint_symbols \/
  e = ValueError_substring_not_found.

(** The reference definition of a token, after the specification's words
    (and the docstring of [encode_uint16]): one shift, one mask and one
    alphabet lookup per field, most significant field first. It is compared
    with the loop of [encode_uint16] below. *)
Definition encode_uint16_ref (x : Z) : outcome string :=
  c1 <- Py.getitem consonants (Z.land (Z.shiftr x 12) 15) ;;
  v1 <- Py.getitem vowels (Z.land (Z.shiftr x 10) 3) ;;
  c2 <- Py.getitem consonants (Z.land (Z.shiftr x 6) 15) ;;
  v2 <- Py.getitem vowels (Z.land (Z.shiftr x 4) 3) ;;
  c3 <- Py.getitem consonants (Z.land x 15) ;;
  Ok (String c1 (String v1 (String c2 (String v2 (String c3 ""))))).

(** The symbol of an alphabet at an index, when the index is known to be
    in range. *)
Definition symbol (alphabet : string) (i : Z) : ascii :=
  match String.get (Z.to_nat i) alphabet with
  | Some c => c
  | None => Ascii.zero
  end.

(** The five fields of a word as the loop of [encode_uint16] meets them:
    [double] is shifted right after each lookup. *)
Definition token_of (x : Z) : string :=
  let d1 := Z.shiftr x 4 in
  let d2 := Z.shiftr d1 2 in
  let d3 := Z.shiftr d2 4 in
  let d4 := Z.shiftr d3 2 in
  String (symbol consonants (Z.land d4 15))
    (String (symbol vowels (Z.land d3 3))
      (String (symbol consonants (Z.land d2 15))
        (String (symbol vowels (Z.land d1 3))
          (String (symbol consonants (Z.land x 15)) "")))).

(** The token of one chunk of [encode]. *)
Definition chunk_token (chunk : list byte) : string :=
  token_of (Py.from_bytes_big chunk).

(** The alphabet that [decode_uint16] consults at slot [i] of a token:
    [ALPHABET[CONSTRUCTION[i]][0]]. *)
Definition slot_alphabet (i : nat) : option string :=
  match nth_error (Py.iter CONSTRUCTION) i with
  | Some position =>
      match dict_get ALPHABET position with
      | Ok (alphabet, _) => Some alphabet
      | Raise _ => None
      end
  | None => None
  end.

(** [decode] after [encode], with the same separator. *)
Definition round_trip (data : list byte) (sep : string) : outcome (list byte) :=
  text <- encode data sep ;; decode text sep.

(** A separator none of whose characters is a symbol of an alphabet. *)
Definition sep_outside_alphabets (sep : string) : bool :=
  forallb (fun c => negb (Py.contains all_symbols c)) (Py.iter sep).

(** A token as [decode_uint16] accepts it: five characters, each a symbol
    of the alphabet [ALPHABET[CONSTRUCTION[i]][0]] of its slot. *)
Definition well_formed (proquint : string) : bool :=
  (Py.len proquint =? 5) &&
  forallb
    (fun pc : ascii * ascii =>
       match dict_get ALPHABET (fst pc) with
       | Ok (alphabet, _) => Py.contains alphabet (snd pc)
       | Raise _ => false
       end)
    (combine (Py.iter CONSTRUCTION) (Py.iter proquint)).

(** ** Bit fields *)

Lemma land_mask_range (y k : Z) :
  0 <= k -> 0 <= Z.land y (2 ^ k - 1) < 2 ^ k.
Proof.
  intros Hk.
  replace (2 ^ k - 1) with (Z.ones k) by (rewrite Z.ones_equiv; lia).
  rewrite Z.land_ones by assumption.
  apply Z.mod_pos_bound. apply Z.pow_pos_nonneg; lia.
Qed.

Lemma glue_field (y k : Z) :
  0 <= k ->
  Z.lor (Z.shiftl (Z.shiftr y k) k) (Z.land y (2 ^ k - 1)) = y.
Proof.
  intros Hk.
  replace (2 ^ k - 1) with (Z.ones k) by (rewrite Z.ones_equiv; lia).
  rewrite <- Z.ldiff_ones_r by assumption.
  apply Z.lor_ldiff_and.
Qed.

Lemma field_of_low_bits (x s k : Z) :
  0 <= s -> 0 <= k -> s + k <= 16 ->
  Z.land (Z.shiftr (x mod 65536) s) (2 ^ k - 1) =
  Z.land (Z.shiftr x s) (2 ^ k - 1).
Proof.
  intros Hs Hk Hsk.
  replace (2 ^ k - 1) with (Z.ones k) by (rewrite Z.ones_equiv; lia).
  apply Z.bits_inj'. intros n Hn.
  rewrite !Z.land_spec, !Z.shiftr_spec, Z.testbit_ones_nonneg by assumption.
  destruct (Z.ltb_spec n k) as [Hlt | Hge].
  - change 65536 with (2 ^ 16).
    rewrite Z.mod_pow2_bits_low by lia. reflexivity.
  - rewrite !andb_false_r. reflexivity.
Qed.

(** ** Alphabet lookups *)

Lemma getitem_in_range (s : string) (i : Z) :
  0 <= i < Py.len s -> Py.getitem s i = Ok (symbol s i).
Proof.
  intros [Hlo Hhi]. unfold Py.getitem, symbol.
  assert (Hneg : (i <? 0) = false) by (apply Z.ltb_ge; assumption).
  rewrite !Hneg.
  destruct (String.get (Z.to_nat i) s) eqn:Hget; [reflexivity |].
  exfalso. unfold Py.len in Hhi.
  assert (Hn : (Z.to_nat i < String.length s)%nat) by lia.
  clear Hhi Hlo. revert Hget Hn. generalize (Z.to_nat i) as n.
  induction s as [| c s IH]; intros n Hget Hn; simpl in *; [lia |].
  destruct n as [| n]; [discriminate |].
  apply (IH n); [assumption | lia].
Qed.

Lemma consonant_at (y : Z) :
  Py.getitem consonants (Z.land y 15) = Ok (symbol consonants (Z.land y 15)).
Proof.
  apply getitem_in_range.
  change 15 with (2 ^ 4 - 1). change (Py.len consonants) with (2 ^ 4).
  apply land_mask_range. lia.
Qed.

Lemma vowel_at (y : Z) :
  Py.getitem vowels (Z.land y 3) = Ok (symbol vowels (Z.land y 3)).
Proof.
  apply getitem_in_range.
  change 3 with (2 ^ 2 - 1). change (Py.len vowels) with (2 ^ 2).
  apply land_mask_range. lia.
Qed.

Lemma encode_step_C (r : string) (d : Z) :
  encode_step (r, d) "C"%char =
  Ok (r ++ String (symbol consonants (Z.land d 15)) "", Z.shiftr d 4).
Proof.
  unfold encode_step. simpl dict_get. unfold bind at 1.
  change (2 ^ 4 - 1) with 15. fold consonants.
  rewrite consonant_at. reflexivity.
Qed.

Lemma encode_step_V (r : string) (d : Z) :
  encode_step (r, d) "V"%char =
  Ok (r ++ String (symbol vowels (Z.land d 3)) "", Z.shiftr d 2).
Proof.
  unfold encode_step. simpl dict_get. unfold bind at 1.
  change (2 ^ 2 - 1) with 3. fold vowels.
  rewrite vowel_at. reflexivity.
Qed.

(** [encode_uint16] never raises, on any integer. *)
Lemma encode_uint16_token (x : Z) : encode_uint16 x = Ok (token_of x).
Proof.
  unfold encode_uint16.
  change (Py.reversed CONSTRUCTION)
    with ["C"%char; "V"%char; "C"%char; "V"%char; "C"%char].
  cbn [for_each].
  rewrite encode_step_C; cbn [bind].
  rewrite encode_step_V; cbn [bind].
  rewrite encode_step_C; cbn [bind].
  rewrite encode_step_V; cbn [bind].
  rewrite encode_step_C; cbn [bind].
  reflexivity.
Qed.

(** ** Looking a symbol up again *)

Lemma get_in (s : string) (n : nat) (c : ascii) :
  String.get n s = Some c -> In c (Py.iter s).
Proof.
  revert n. induction s as [| d s IH]; intros n Hget; simpl in *.
  - discriminate.
  - destruct n as [| n].
    + left. congruence.
    + right. eapply IH. eassumption.
Qed.

Lemma contains_in (s : string) (c : ascii) :
  Py.contains s c = true <-> In c (Py.iter s).
Proof.
  induction s as [| d s IH]; simpl.
  - split; [discriminate | tauto].
  - destruct (Ascii.eqb_spec c d) as [-> | Hne].
    + split; auto.
    + rewrite IH. split; [auto | intros [Heq | Hin]; congruence].
Qed.

Lemma contains_app (s t : string) (c : ascii) :
  Py.contains (s ++ t) c = Py.contains s c || Py.contains t c.
Proof.
  induction s as [| d s IH]; simpl; [reflexivity |].
  destruct (Ascii.eqb c d); [reflexivity | exact IH].
Qed.

Lemma find_from_get (s : string) (n : nat) (c : ascii) (k : Z) :
  NoDup (Py.iter s) -> String.get n s = Some c ->
  Py.find_from s c k = Some (k + Z.of_nat n).
Proof.
  revert n k. induction s as [| d s IH]; intros n k Hnd Hget; simpl in *.
  - discriminate.
  - inversion Hnd as [| ? ? Hnotin Hnd']; subst.
    destruct n as [| n].
    + injection Hget as ->. rewrite Ascii.eqb_refl. f_equal. lia.
    + destruct (Ascii.eqb_spec c d) as [-> | Hne].
      * exfalso. apply Hnotin. eapply get_in. eassumption.
      * rewrite (IH n (k + 1)) by assumption. f_equal. lia.
Qed.

Lemma get_symbol (s : string) (i : Z) :
  0 <= i < Py.len s -> String.get (Z.to_nat i) s = Some (symbol s i).
Proof.
  intros Hi. pose proof (getitem_in_range s i Hi) as H.
  unfold Py.getitem in H.
  assert (Hneg : (i <? 0) = false) by (apply Z.ltb_ge; lia).
  rewrite !Hneg in H. unfold symbol in *.
  destruct (String.get (Z.to_nat i) s); [reflexivity | discriminate].
Qed.

Lemma index_symbol (s : string) (i : Z) :
  NoDup (Py.iter s) -> 0 <= i < Py.len s ->
  Py.index s (symbol s i) = Ok i.
Proof.
  intros Hnd Hi. unfold Py.index.
  rewrite (find_from_get s (Z.to_nat i) _ 0 Hnd (get_symbol s i Hi)).
  f_equal. lia.
Qed.

Lemma contains_symbol (s : string) (i : Z) :
  0 <= i < Py.len s -> Py.contains s (symbol s i) = true.
Proof.
  intros Hi. apply contains_in. eapply get_in. apply get_symbol. assumption.
Qed.

Lemma find_from_bounds (s : string) (c : ascii) (k i : Z) :
  Py.find_from s c k = Some i -> k <= i < k + Py.len s.
Proof.
  unfold Py.len. revert k. induction s as [| d s IH]; intros k H; simpl in *.
  - discriminate.
  - destruct (Ascii.eqb c d).
    + injection H as <-. lia.
    + apply IH in H. lia.
Qed.

Lemma find_from_none (s : string) (c : ascii) (k : Z) :
  Py.find_from s c k = None <-> Py.contains s c = false.
Proof.
  revert k. induction s as [| d s IH]; intros k; simpl.
  - tauto.
  - destruct (Ascii.eqb c d); [split; discriminate | apply IH].
Qed.

(** [alphabet.index(char)] either finds the symbol or raises. *)
Lemma index_cases (s : string) (c : ascii) :
  (Py.contains s c = true /\ exists i, Py.index s c = Ok i /\ 0 <= i < Py.len s) \/
  (Py.contains s c = false /\ Py.index s c = Raise ValueError_substring_not_found).
Proof.
  unfold Py.index. destruct (Py.find_from s c 0) as [i |] eqn:Hfind.
  - left. split.
    + destruct (Py.contains s c) eqn:Hc; [reflexivity |].
      apply (find_from_none s c 0) in Hc. congruence.
    + exists i. split; [reflexivity |].
      apply find_from_bounds in Hfind. lia.
  - right. split; [| reflexivity]. apply (find_from_none s c 0). assumption.
Qed.

Lemma nodup_consonants : NoDup (Py.iter consonants).
Proof.
  rewrite <- (eq_refl : List.nodup ascii_dec (Py.iter consonants) = Py.iter consonants).
  apply NoDup_nodup.
Qed.

Lemma nodup_vowels : NoDup (Py.iter vowels).
Proof.
  rewrite <- (eq_refl : List.nodup ascii_dec (Py.iter vowels) = Py.iter vowels).
  apply NoDup_nodup.
Qed.

Lemma all_symbols_eq : all_symbols = consonants ++ vowels.
Proof. reflexivity. Qed.

Lemma consonant_in_all (c : ascii) :
  Py.contains consonants c = true -> Py.contains all_symbols c = true.
Proof.
  intros H. rewrite all_symbols_eq, contains_app, H. reflexivity.
Qed.

Lemma vowel_in_all (c : ascii) :
  Py.contains vowels c = true -> Py.contains all_symbols c = true.
Proof.
  intros H. rewrite all_symbols_eq, contains_app, H. apply orb_true_r.
Qed.

(** ** Decoding five symbols *)

Lemma decode_step_C (r : Z) (c : ascii) :
  decode_step r ("C"%char, c) =
  (i <- Py.index consonants c ;; Ok (Z.lor (Z.shiftl r 4) i)).
Proof. reflexivity. Qed.

Lemma decode_step_V (r : Z) (c : ascii) :
  decode_step r ("V"%char, c) =
  (i <- Py.index vowels c ;; Ok (Z.lor (Z.shiftl r 2) i)).
Proof. reflexivity. Qed.

Lemma decode_uint16_five (c1 v1 c2 v2 c3 : ascii) :
  decode_uint16 (String c1 (String v1 (String c2 (String v2 (String c3 ""))))) =
  (_ <- py_assert (forallb (Py.contains all_symbols) [c1; v1; c2; v2; c3])
         assert_proquint_symbols ;;
   r1 <- decode_step 0 ("C"%char, c1) ;;
   r2 <- decode_step r1 ("V"%char, v1) ;;
   r3 <- decode_step r2 ("C"%char, c2) ;;
   r4 <- decode_step r3 ("V"%char, v2) ;;
   decode_step r4 ("C"%char, c3)).
Proof.
  unfold decode_uint16.
  change (py_assert (Py.len _ =? 5) assert_proquint_length) with (Ok tt).
  cbn [bind].
  change (Py.iter (String c1 (String v1 (String c2 (String v2 (String c3 ""))))))
    with [c1; v1; c2; v2; c3].
  destruct (py_assert _ assert_proquint_symbols); [| reflexivity].
  cbn [bind].
  change (combine (Py.iter CONSTRUCTION) [c1; v1; c2; v2; c3])
    with [("C"%char, c1); ("V"%char, v1); ("C"%char, c2); ("V"%char, v2);
          ("C"%char, c3)].
  cbn [for_each].
  destruct (decode_step 0 ("C"%char, c1)) as [r1 |]; cbn [bind]; [| reflexivity].
  destruct (decode_step r1 ("V"%char, v1)) as [r2 |]; cbn [bind]; [| reflexivity].
  destruct (decode_step r2 ("C"%char, c2)) as [r3 |]; cbn [bind]; [| reflexivity].
  destruct (decode_step r3 ("V"%char, v2)) as [r4 |]; cbn [bind]; [| reflexivity].
  destruct (decode_step r4 ("C"%char, c3)) as [r5 |]; reflexivity.
Qed.

Lemma decode_uint16_fields (c1 v1 c2 v2 c3 : ascii) (i1 j1 i2 j2 i3 : Z) :
  Py.index consonants c1 = Ok i1 ->
  Py.index vowels v1 = Ok j1 ->
  Py.index consonants c2 = Ok i2 ->
  Py.index vowels v2 = Ok j2 ->
  Py.index consonants c3 = Ok i3 ->
  decode_uint16 (String c1 (String v1 (String c2 (String v2 (String c3 ""))))) =
  Ok (Z.lor (Z.shiftl (Z.lor (Z.shiftl (Z.lor (Z.shiftl (Z.lor (Z.shiftl
        (Z.lor (Z.shiftl 0 4) i1) 2) j1) 4) i2) 2) j2) 4) i3).
Proof.
  intros H1 H2 H3 H4 H5.
  assert (Hin : forall s c i, Py.index s c = Ok i -> Py.contains s c = true).
  { intros s c i H. destruct (index_cases s c) as [[Hc _] | [_ Hr]];
      [assumption | congruence]. }
  rewrite decode_uint16_five.
  cbn [forallb].
  rewrite (consonant_in_all _ (Hin _ _ _ H1)), (vowel_in_all _ (Hin _ _ _ H2)),
    (consonant_in_all _ (Hin _ _ _ H3)), (vowel_in_all _ (Hin _ _ _ H4)),
    (consonant_in_all _ (Hin _ _ _ H5)).
  cbn [andb py_assert bind].
  rewrite decode_step_C, H1; cbn [bind].
  rewrite decode_step_V, H2; cbn [bind].
  rewrite decode_step_C, H3; cbn [bind].
  rewrite decode_step_V, H4; cbn [bind].
  rewrite decode_step_C, H5; cbn [bind].
  reflexivity.
Qed.

(** [decode_uint16] returns on every token whose slots hold symbols of
    their alphabets. *)
Lemma decode_uint16_well_formed (c1 v1 c2 v2 c3 : ascii) :
  Py.contains consonants c1 = true ->
  Py.contains vowels v1 = true ->
  Py.contains consonants c2 = true ->
  Py.contains vowels v2 = true ->
  Py.contains consonants c3 = true ->
  exists n,
    decode_uint16 (String c1 (String v1 (String c2 (String v2 (String c3 ""))))) =
    Ok n.
Proof.
  intros H1 H2 H3 H4 H5.
  assert (Hidx : forall s c, Py.contains s c = true -> exists i, Py.index s c = Ok i).
  { intros s c H. destruct (index_cases s c) as [(_ & i & Hi & _) | (Hc & _)];
      [now exists i | congruence]. }
  destruct (Hidx _ _ H1) as [i1 E1]. destruct (Hidx _ _ H2) as [j1 E2].
  destruct (Hidx _ _ H3) as [i2 E3]. destruct (Hidx _ _ H4) as [j2 E4].
  destruct (Hidx _ _ H5) as [i3 E5].
  eexists. apply (decode_uint16_fields _ _ _ _ _ _ _ _ _ _ E1 E2 E3 E4 E5).
Qed.

(** Decoding the token of [x] gives the low 16 bits of [x]. *)
Lemma decode_token_of (x : Z) : decode_uint16 (token_of x) = Ok (x mod 65536).
Proof.
  unfold token_of. cbv zeta.
  set (d1 := Z.shiftr x 4). set (d2 := Z.shiftr d1 2).
  set (d3 := Z.shiftr d2 4). set (d4 := Z.shiftr d3 2).
  assert (HC : forall y, Py.index consonants (symbol consonants (Z.land y 15))
                         = Ok (Z.land y 15)).
  { intros y. apply index_symbol; [exact nodup_consonants |].
    change 15 with (2 ^ 4 - 1). change (Py.len consonants) with (2 ^ 4).
    apply land_mask_range. lia. }
  assert (HV : forall y, Py.index vowels (symbol vowels (Z.land y 3))
                         = Ok (Z.land y 3)).
  { intros y. apply index_symbol; [exact nodup_vowels |].
    change 3 with (2 ^ 2 - 1). change (Py.len vowels) with (2 ^ 2).
    apply land_mask_range. lia. }
  rewrite (decode_uint16_fields _ _ _ _ _ _ _ _ _ _
             (HC d4) (HV d3) (HC d2) (HV d1) (HC x)).
  f_equal.
  rewrite Z.shiftl_0_l, Z.lor_0_l.
  (* the top field is the low four bits of [x >> 12] *)
  assert (Htop : Z.land d4 15 = Z.shiftr (x mod 65536) 12).
  { subst d4 d3 d2 d1. rewrite !Z.shiftr_shiftr by lia. cbn [Z.add Pos.add Pos.succ].
    change 15 with (2 ^ 4 - 1).
    rewrite <- (field_of_low_bits x 12 4) by lia.
    change (2 ^ 4 - 1) with (Z.ones 4). rewrite Z.land_ones by lia.
    apply Z.mod_small. rewrite Z.shiftr_div_pow2 by lia.
    pose proof (Z.mod_pos_bound x 65536 ltac:(lia)) as Hm.
    split; [apply Z.div_pos; lia |].
    apply Z.div_lt_upper_bound; cbn; lia. }
  set (m := x mod 65536) in *.
  assert (H3 : Z.land d3 3 = Z.land (Z.shiftr m 10) (2 ^ 2 - 1)).
  { subst d3 d2 d1 m. rewrite !Z.shiftr_shiftr by lia. cbn [Z.add Pos.add Pos.succ].
    symmetry. apply field_of_low_bits; lia. }
  assert (H2 : Z.land d2 15 = Z.land (Z.shiftr m 6) (2 ^ 4 - 1)).
  { subst d2 d1 m. rewrite !Z.shiftr_shiftr by lia. cbn [Z.add Pos.add Pos.succ].
    symmetry. apply field_of_low_bits; lia. }
  assert (H1 : Z.land d1 3 = Z.land (Z.shiftr m 4) (2 ^ 2 - 1)).
  { subst d1 m. symmetry. apply field_of_low_bits; lia. }
  assert (H0 : Z.land x 15 = Z.land m (2 ^ 4 - 1)).
  { subst m. pose proof (field_of_low_bits x 0 4) as H.
    rewrite !Z.shiftr_0_r in H. symmetry. apply H; lia. }
  rewrite Htop, H3, H2, H1, H0.
  replace (Z.shiftr m 12) with (Z.shiftr (Z.shiftr m 10) 2)
    by (rewrite Z.shiftr_shiftr by lia; reflexivity).
  rewrite glue_field by lia.
  replace (Z.shiftr m 10) with (Z.shiftr (Z.shiftr m 6) 4)
    by (rewrite Z.shiftr_shiftr by lia; reflexivity).
  rewrite glue_field by lia.
  replace (Z.shiftr m 6) with (Z.shiftr (Z.shiftr m 4) 2)
    by (rewrite Z.shiftr_shiftr by lia; reflexivity).
  rewrite glue_field by lia.
  apply glue_field. lia.
Qed.

Lemma token_of_low_bits (x : Z) : token_of (x mod 65536) = token_of x.
Proof.
  unfold token_of. cbv zeta.
  rewrite !Z.shiftr_shiftr by lia. cbn [Z.add Pos.add Pos.succ].
  change 15 with (2 ^ 4 - 1). change 3 with (2 ^ 2 - 1).
  rewrite (field_of_low_bits x 12 4), (field_of_low_bits x 10 2),
    (field_of_low_bits x 6 4), (field_of_low_bits x 4 2) by lia.
  pose proof (field_of_low_bits x 0 4) as H0.
  rewrite !Z.shiftr_0_r in H0. rewrite H0 by lia.
  reflexivity.
Qed.

Lemma string_of_length_5 (s : string) :
  Py.len s = 5 ->
  exists c1 v1 c2 v2 c3,
    s = String c1 (String v1 (String c2 (String v2 (String c3 "")))).
Proof.
  unfold Py.len. intros H.
  destruct s as [| c1 [| v1 [| c2 [| v2 [| c3 [| c4 s]]]]]]; simpl in H; try lia.
  now exists c1, v1, c2, v2, c3.
Qed.

(** The alphabet of a slot of [CONSTRUCTION]. *)
Lemma slot_alphabets :
  map (fun position => dict_get ALPHABET position) (Py.iter CONSTRUCTION) =
  [Ok (consonants, 4); Ok (vowels, 2); Ok (consonants, 4); Ok (vowels, 2);
   Ok (consonants, 4)].
Proof. reflexivity. Qed.

(** ** Words and tokens *)

(** C1. Decoding the token of an unsigned 16-bit value gives the value
    back: [decode_uint16(encode_uint16(x)) == x] for [x] in [0, 65535]. *)
Theorem decode_encode_uint16 (x : Z) :
  0 <= x <= 65535 ->
  exists token, encode_uint16 x = Ok token /\ decode_uint16 token = Ok x.
Proof.
  intros Hx. exists (token_of x). split.
  - apply encode_uint16_token.
  - rewrite decode_token_of. f_equal. apply Z.mod_small. lia.
Qed.

Lemma decode_encode_uint16_witness :
  exists token, encode_uint16 54321 = Ok token /\ decode_uint16 token = Ok 54321.
Proof. apply (decode_encode_uint16 54321). lia. Defined.

(** C5. On [0, 65535] the loop of [encode_uint16] computes the token of
    the shift-and-mask definition: consonant [(x >> 12) & 15], vowel
    [(x >> 10) & 3], consonant [(x >> 6) & 15], vowel [(x >> 4) & 3],
    consonant [x & 15], in this order; both return a token. *)
Theorem encode_uint16_refines_ref (x : Z) :
  0 <= x <= 65535 ->
  exists token, encode_uint16 x = Ok token /\ encode_uint16_ref x = Ok token.
Proof.
  intros _. exists (token_of x). split; [apply encode_uint16_token |].
  unfold encode_uint16_ref, token_of. cbv zeta.
  rewrite !Z.shiftr_shiftr by lia. cbn [Z.add Pos.add Pos.succ].
  rewrite !consonant_at, !vowel_at. reflexivity.
Qed.

Lemma encode_uint16_refines_ref_witness :
  exists token, encode_uint16 32512 = Ok token /\ encode_uint16_ref 32512 = Ok token.
Proof. apply (encode_uint16_refines_ref 32512). lia. Defined.

(** C9. [encode_uint16] reads only the low 16 bits of a nonnegative
    argument: [encode_uint16(x) == encode_uint16(x mod 65536)], and the call
    returns a token instead of rejecting [x >= 65536]. *)
Theorem encode_uint16_low_bits (x : Z) :
  0 <= x ->
  encode_uint16 x = encode_uint16 (x mod 65536) /\
  exists token, encode_uint16 x = Ok token.
Proof.
  intros _. rewrite !encode_uint16_token, token_of_low_bits.
  split; [reflexivity | eexists; reflexivity].
Qed.

Lemma encode_uint16_low_bits_witness :
  encode_uint16 98049 = encode_uint16 (98049 mod 65536) /\
  exists token, encode_uint16 98049 = Ok token.
Proof. apply (encode_uint16_low_bits 98049). lia. Defined.

(** C8. A token that is not exactly five characters long makes
    [decode_uint16] fail on its first assertion, whatever its characters
    are: the length is checked before any symbol is looked at. *)
Theorem decode_uint16_wrong_length (proquint : string) :
  Py.len proquint <> 5 ->
  exists e, decode_uint16 proquint = Raise e /\ InvalidLength e.
Proof.
  intros Hlen. exists (AssertionError assert_proquint_length).
  split; [| reflexivity].
  unfold decode_uint16.
  destruct (Z.eqb_spec (Py.len proquint) 5) as [Heq | _]; [contradiction |].
  reflexivity.
Qed.

Lemma decode_uint16_wrong_length_witness :
  (exists e, decode_uint16 "wxyz" = Raise e /\ InvalidLength e) /\
  (exists e, decode_uint16 "lusabb" = Raise e /\ InvalidLength e).
Proof.
  split.
  - apply (decode_uint16_wrong_length "wxyz"). vm_compute. discriminate.
  - apply (decode_uint16_wrong_length "lusabb"). vm_compute. discriminate.
Defined.

(** C3. A five-character token with a character that is not in the
    alphabet of its slot makes [decode_uint16] fail with an invalid-symbol
    error: the assertion on the symbols when some character is in neither
    alphabet, the failed lookup [alphabet.index(char)] when every character
    is in one of the alphabets but one stands in the slot of the other. *)
Theorem decode_uint16_invalid_symbol
    (proquint : string) (i : nat) (c : ascii) (alphabet : string) :
  Py.len proquint = 5 ->
  nth_error (Py.iter proquint) i = Some c ->
  slot_alphabet i = Some alphabet ->
  Py.contains alphabet c = false ->
  let e := if forallb (Py.contains all_symbols) (Py.iter proquint)
           then ValueError_substring_not_found
           else AssertionError assert_proquint_symbols in
  decode_uint16 proquint = Raise e /\ InvalidSymbol e.
Proof.
  intros Hlen Hc Hslot Hout e.
  split; [| subst e; unfold InvalidSymbol;
            destruct (forallb _ _); [right | left]; reflexivity].
  destruct (string_of_length_5 proquint Hlen) as (c1 & v1 & c2 & v2 & c3 & ->).
  rewrite decode_uint16_five.
  change (Py.iter (String c1 (String v1 (String c2 (String v2 (String c3 ""))))))
    with [c1; v1; c2; v2; c3] in *.
  subst e. destruct (forallb (Py.contains all_symbols) [c1; v1; c2; v2; c3]);
    [| reflexivity].
  cbn [py_assert bind].
  rewrite decode_step_C.
  destruct (index_cases consonants c1) as [(H1 & i1 & -> & _) | (_ & ->)];
    [| reflexivity]; cbn [bind].
  rewrite decode_step_V.
  destruct (index_cases vowels v1) as [(H2 & j1 & -> & _) | (_ & ->)];
    [| reflexivity]; cbn [bind].
  rewrite decode_step_C.
  destruct (index_cases consonants c2) as [(H3 & i2 & -> & _) | (_ & ->)];
    [| reflexivity]; cbn [bind].
  rewrite decode_step_V.
  destruct (index_cases vowels v2) as [(H4 & j2 & -> & _) | (_ & ->)];
    [| reflexivity]; cbn [bind].
  rewrite decode_step_C.
  destruct (index_cases consonants c3) as [(H5 & i3 & -> & _) | (_ & ->)];
    [| reflexivity]; cbn [bind].
  (* every slot holds a symbol of its alphabet: no slot is left for [c] *)
  exfalso.
  destruct i as [| [| [| [| [| i]]]]]; cbn in Hc, Hslot;
    try (injection Hc as <-; injection Hslot as <-;
         unfold consonants, vowels in *; congruence).
  destruct i; discriminate.
Qed.

Lemma decode_uint16_invalid_symbol_witness :
  (decode_uint16 "aaaaa" = Raise ValueError_substring_not_found /\
   InvalidSymbol ValueError_substring_not_found) /\
  (decode_uint16 "bawab" = Raise (AssertionError assert_proquint_symbols) /\
   InvalidSymbol (AssertionError assert_proquint_symbols)).
Proof.
  split.
  - apply (decode_uint16_invalid_symbol "aaaaa" 0 "a"%char consonants);
      reflexivity.
  - apply (decode_uint16_invalid_symbol "bawab" 2 "w"%char consonants);
      reflexivity.
Defined.

(** ** Strings *)

Lemma str_app_nil_r (s : string) : s ++ "" = s.
Proof. induction s as [| c s IH]; simpl; [reflexivity | now rewrite IH]. Qed.

Lemma str_app_assoc (s t u : string) : (s ++ t) ++ u = s ++ (t ++ u).
Proof. induction s as [| c s IH]; simpl; [reflexivity | now rewrite IH]. Qed.

Lemma str_length_app (s t : string) :
  String.length (s ++ t) = (String.length s + String.length t)%nat.
Proof. induction s as [| c s IH]; simpl; [reflexivity | now rewrite IH]. Qed.

Lemma prefix_app (s t : string) : String.prefix s (s ++ t) = true.
Proof.
  induction s as [| c s IH]; simpl.
  - destruct t; reflexivity.
  - destruct (ascii_dec c c); [exact IH | contradiction].
Qed.

(** ** Lists taken two elements at a time *)

Section PairInduction.
Context {A : Type} (P : list A -> Prop).
Hypothesis P_nil : P [].
Hypothesis P_one : forall a, P [a].
Hypothesis P_two : forall a b l, P l -> P (a :: b :: l).

Lemma pair_induction : forall l, P l.
Proof.
  assert (H : forall l, P l /\ forall a, P (a :: l)).
  { induction l as [| b l [IH1 IH2]].
    - split; [exact P_nil | exact P_one].
    - split; [apply IH2 | intros a; apply P_two; exact IH1]. }
  intros l. apply H.
Qed.
End PairInduction.

Lemma even_length_mod (n : nat) : (Z.of_nat n mod 2 =? 0) = Nat.even n.
Proof.
  destruct (Nat.Even_or_Odd n) as [[k ->] | [k ->]].
  - rewrite Nat2Z.inj_mul, Z.mul_comm, Z.mod_mul by lia.
    symmetry. apply Nat.even_spec. now exists k.
  - replace (Z.of_nat (2 * k + 1)) with (1 + Z.of_nat k * 2) by lia.
    rewrite Z.mod_add by lia.
    rewrite Nat.add_comm, Nat.even_add_mul_2. reflexivity.
Qed.

Lemma range_by_2_step (n : nat) :
  Py.range_by_2 (S (S n)) = 0%nat :: map (fun i => S (S i)) (Py.range_by_2 n).
Proof.
  unfold Py.range_by_2.
  change (S (S n) + 1)%nat with (S (S (n + 1))).
  change (Nat.div2 (S (S (n + 1)))) with (S (Nat.div2 (n + 1))).
  cbn [seq map]. f_equal.
  rewrite <- seq_shift, !map_map.
  apply map_ext. intros k. lia.
Qed.

Lemma chunks_nil : chunks [] = [].
Proof. reflexivity. Qed.

Lemma chunks_two (a b : byte) (rest : list byte) :
  chunks (a :: b :: rest) = [a; b] :: chunks rest.
Proof.
  unfold chunks. cbn [List.length].
  rewrite range_by_2_step. cbn [map]. f_equal.
  rewrite map_map. apply map_ext. intros i.
  unfold Py.slice.
  replace (S (S i) + 2 - S (S i))%nat with (i + 2 - i)%nat by lia.
  reflexivity.
Qed.

Lemma chunks_count (data : list byte) :
  Nat.even (List.length data) = true ->
  List.length (chunks data) = Nat.div2 (List.length data).
Proof.
  induction data as [| a | a b rest IH] using pair_induction; intros Hev.
  - reflexivity.
  - discriminate.
  - rewrite chunks_two. cbn [List.length Nat.div2]. f_equal. apply IH. exact Hev.
Qed.

Lemma chunks_concat (data : list byte) :
  Nat.even (List.length data) = true ->
  List.concat (chunks data) = data /\
  Forall (fun chunk => List.length chunk = 2%nat) (chunks data).
Proof.
  induction data as [| a | a b rest IH] using pair_induction; intros Hev.
  - split; [reflexivity | constructor].
  - discriminate.
  - rewrite chunks_two. destruct (IH Hev) as [IHc IHf]. split.
    + cbn [List.concat app]. now rewrite IHc.
    + constructor; [reflexivity | exact IHf].
Qed.

(** ** [encode] *)

Lemma encode_chunks (cs : list (list byte)) (acc : list string) :
  for_each encode_chunk cs acc = Ok (acc ++ map chunk_token cs)%list.
Proof.
  revert acc. induction cs as [| chunk cs IH]; intros acc; cbn [for_each map].
  - now rewrite app_nil_r.
  - unfold encode_chunk at 1. rewrite encode_uint16_token. cbn [bind].
    rewrite IH, <- app_assoc. reflexivity.
Qed.

Lemma encode_even (data : list byte) (sep : string) :
  Nat.even (List.length data) = true ->
  encode data sep = Ok (Py.join sep (map chunk_token (chunks data))).
Proof.
  intros Hev. unfold encode.
  rewrite even_length_mod, Hev. cbn [py_assert bind].
  rewrite encode_chunks. reflexivity.
Qed.

Lemma encode_odd (data : list byte) (sep : string) :
  Nat.even (List.length data) = false ->
  encode data sep = Raise (AssertionError assert_data_even).
Proof.
  intros Hodd. unfold encode.
  rewrite even_length_mod, Hodd. reflexivity.
Qed.

Lemma join_cons (sep t u : string) (ts : list string) :
  Py.join sep (t :: u :: ts) = t ++ sep ++ Py.join sep (u :: ts).
Proof. reflexivity. Qed.

Lemma join_length (sep : string) (ts : list string) :
  ts <> [] ->
  Forall (fun t => String.length t = 5%nat) ts ->
  String.length (Py.join sep ts) =
  (5 * List.length ts + (List.length ts - 1) * String.length sep)%nat.
Proof.
  induction ts as [| t ts IH]; intros Hne Hall; [contradiction |].
  inversion Hall as [| ? ? Ht Hts]; subst.
  destruct ts as [| u ts].
  - change (Py.join sep [t]) with t. rewrite Ht. cbn [List.length]. lia.
  - rewrite join_cons, !str_length_app, IH, Ht by (assumption || discriminate).
    cbn [List.length Nat.sub]. rewrite Nat.sub_0_r. lia.
Qed.

(** ** [split] after [join] *)

Lemma split_scan_skip (sep r cur rest : string) :
  Py.split_scan sep (String.length r) cur (r ++ rest) =
  Py.split_scan sep 0 cur rest.
Proof.
  induction r as [| c r IH]; cbn [String.length append].
  - destruct rest; reflexivity.
  - cbn [Py.split_scan]. exact IH.
Qed.

Lemma split_scan_sep (sep cur rest : string) :
  sep <> "" ->
  Py.split_scan sep 0 cur (sep ++ rest) = cur :: Py.split_scan sep 0 "" rest.
Proof.
  intros Hne. destruct sep as [| c0 sep']; [contradiction |].
  cbn [append Py.split_scan].
  change (String c0 (sep' ++ rest)) with (String c0 sep' ++ rest).
  rewrite prefix_app. cbn [String.length Nat.pred].
  f_equal. apply split_scan_skip.
Qed.

(** A piece that does not hold the first character of the separator is
    read through without a cut. *)
Lemma split_scan_piece (c0 : ascii) (sep' t cur rest : string) :
  ~ In c0 (Py.iter t) ->
  Py.split_scan (String c0 sep') 0 cur (t ++ rest) =
  Py.split_scan (String c0 sep') 0 (cur ++ t) rest.
Proof.
  revert cur. induction t as [| c t IH]; intros cur Hnotin.
  - now rewrite str_app_nil_r.
  - cbn [append Py.split_scan String.prefix].
    destruct (ascii_dec c0 c) as [-> | Hne].
    + exfalso. apply Hnotin. now left.
    + rewrite IH by (intros Hin; apply Hnotin; now right).
      rewrite str_app_assoc. reflexivity.
Qed.

Lemma split_join (c0 : ascii) (sep' : string) (ts : list string) :
  ts <> [] ->
  Forall (fun t => ~ In c0 (Py.iter t)) ts ->
  Py.split (Py.join (String c0 sep') ts) (String c0 sep') = Ok ts.
Proof.
  intros Hne Hall. unfold Py.split. f_equal.
  induction ts as [| t ts IH]; [contradiction |].
  inversion Hall as [| ? ? Ht Hts]; subst.
  destruct ts as [| u ts].
  - change (Py.join (String c0 sep') [t]) with t.
    rewrite <- (str_app_nil_r t) at 1.
    rewrite split_scan_piece by assumption. reflexivity.
  - rewrite join_cons, split_scan_piece by assumption.
    rewrite split_scan_sep by discriminate.
    cbn [append]. f_equal. apply IH; [discriminate | assumption].
Qed.

(** The characters of a token are symbols of the alphabets. *)
Lemma token_symbols (x : Z) :
  forallb (Py.contains all_symbols) (Py.iter (token_of x)) = true.
Proof.
  assert (HC : forall y, Py.contains all_symbols (symbol consonants (Z.land y 15))
                         = true).
  { intros y. apply consonant_in_all, contains_symbol.
    change 15 with (2 ^ 4 - 1). change (Py.len consonants) with (2 ^ 4).
    apply land_mask_range. lia. }
  assert (HV : forall y, Py.contains all_symbols (symbol vowels (Z.land y 3))
                         = true).
  { intros y. apply vowel_in_all, contains_symbol.
    change 3 with (2 ^ 2 - 1). change (Py.len vowels) with (2 ^ 2).
    apply land_mask_range. lia. }
  unfold token_of. cbv zeta.
  change (Py.iter (String ?a (String ?b (String ?c (String ?d (String ?e ""))))))
    with [a; b; c; d; e].
  cbn [forallb]. rewrite !HC, !HV. reflexivity.
Qed.

Lemma token_avoids (c0 : ascii) (x : Z) :
  Py.contains all_symbols c0 = false -> ~ In c0 (Py.iter (token_of x)).
Proof.
  intros Hout Hin.
  pose proof (token_symbols x) as Hall. rewrite forallb_forall in Hall.
  apply Hall in Hin. congruence.
Qed.

(** ** [decode] *)

Lemma byte_val_range (b : byte) : 0 <= Py.byte_val b < 256.
Proof.
  unfold Py.byte_val. pose proof (Byte.to_N_bounded b). lia.
Qed.

Lemma byte_of_val (b : byte) : Byte.of_N (Z.to_N (Py.byte_val b)) = Some b.
Proof.
  unfold Py.byte_val. rewrite N2Z.id. apply Byte.of_to_N.
Qed.

Lemma from_bytes_big_two (a b : byte) :
  Py.from_bytes_big [a; b] = Py.byte_val a * 256 + Py.byte_val b.
Proof. unfold Py.from_bytes_big. cbn [fold_left]. lia. Qed.

Lemma to_bytes_from_bytes (a b : byte) :
  Py.to_bytes_big (Py.from_bytes_big [a; b]) 2 = Ok [a; b].
Proof.
  rewrite from_bytes_big_two.
  pose proof (byte_val_range a) as Ha. pose proof (byte_val_range b) as Hb.
  unfold Py.to_bytes_big.
  destruct (Z.ltb_spec (Py.byte_val a * 256 + Py.byte_val b) 0) as [Hneg | _];
    [lia |].
  cbn [Py.to_bytes_little].
  set (n := Py.byte_val a * 256 + Py.byte_val b).
  replace (n mod 256) with (Py.byte_val b)
    by (apply (Z.mod_unique n 256 (Py.byte_val a)); lia).
  replace (n / 256) with (Py.byte_val a)
    by (apply (Z.div_unique n 256 (Py.byte_val a) (Py.byte_val b)); lia).
  rewrite (Z.mod_small (Py.byte_val a)), (Z.div_small (Py.byte_val a)) by lia.
  rewrite !byte_of_val. reflexivity.
Qed.

Lemma decode_chunk_token (acc : list byte) (a b : byte) :
  decode_token acc (chunk_token [a; b]) = Ok (acc ++ [a; b])%list.
Proof.
  unfold decode_token, chunk_token. rewrite decode_token_of.
  pose proof (byte_val_range a) as Ha. pose proof (byte_val_range b) as Hb.
  rewrite Z.mod_small by (rewrite from_bytes_big_two; lia).
  cbn [bind]. rewrite to_bytes_from_bytes. reflexivity.
Qed.

Lemma decode_chunk_tokens (cs : list (list byte)) (acc : list byte) :
  Forall (fun chunk => List.length chunk = 2%nat) cs ->
  for_each decode_token (map chunk_token cs) acc = Ok (acc ++ List.concat cs)%list.
Proof.
  intros Hall. revert acc.
  induction Hall as [| chunk cs Hlen _ IH]; intros acc; cbn [map for_each List.concat].
  - now rewrite app_nil_r.
  - destruct chunk as [| a [| b [| ? ?]]]; try discriminate.
    rewrite decode_chunk_token. cbn [bind].
    rewrite IH, <- app_assoc. reflexivity.
Qed.

Lemma to_bytes_little_length (k : nat) (n : Z) :
  List.length (fst (Py.to_bytes_little k n)) = k.
Proof.
  revert n. induction k as [| k IH]; intros n; cbn [Py.to_bytes_little].
  - reflexivity.
  - specialize (IH (n / 256)).
    destruct (Py.to_bytes_little k (n / 256)) as [bs rest].
    cbn [fst List.length] in *. now rewrite IH.
Qed.

Lemma to_bytes_big_length (n : Z) (k : nat) (bs : list byte) :
  Py.to_bytes_big n k = Ok bs -> List.length bs = k.
Proof.
  unfold Py.to_bytes_big. destruct (n <? 0); [discriminate |].
  pose proof (to_bytes_little_length k n) as Hlen.
  destruct (Py.to_bytes_little k n) as [l rest]. cbn [fst] in Hlen.
  destruct (rest =? 0); [| discriminate].
  intros [= <-]. now rewrite length_rev.
Qed.

Lemma decode_tokens_length (tokens : list string) (acc bs : list byte) :
  for_each decode_token tokens acc = Ok bs ->
  List.length bs = (List.length acc + 2 * List.length tokens)%nat.
Proof.
  revert acc. induction tokens as [| t tokens IH]; intros acc; cbn [for_each].
  - intros [= <-]. cbn [List.length]. lia.
  - unfold decode_token at 1.
    destruct (decode_uint16 t) as [n |]; cbn [bind]; [| discriminate].
    destruct (Py.to_bytes_big n 2) as [two |] eqn:Htwo; cbn [bind]; [| discriminate].
    intros H. apply IH in H. apply to_bytes_big_length in Htwo.
    rewrite length_app in H. cbn [List.length]. lia.
Qed.

(** ** Buffers and texts *)

(** X13. Every assertion of [run_tests] holds: the function raises no
    [AssertionError]. *)
Lemma run_tests_pass : run_tests = true.
Proof. vm_compute. reflexivity. Qed.

(** C4. The conformance vectors: the four bytes of 127.0.0.1 encode, with
    the default separator, to "lusab-babad", and "sinid-makam" decodes to
    the four bytes of 198.81.129.136. *)
Theorem conformance_vectors :
  encode [x7f; x00; x00; x01] default_sep = Ok "lusab-babad" /\
  decode "sinid-makam" default_sep = Ok [xc6; x51; x81; x88].
Proof. split; vm_compute; reflexivity. Qed.

(** C7. [encode] fails, on its assertion, exactly when the input has odd
    length; on an input of even length it returns a text, the empty text for
    the empty input. *)
Theorem encode_fails_iff_odd (data : list byte) (sep : string) :
  ((exists e, encode data sep = Raise e) <-> Nat.odd (List.length data) = true) /\
  (forall e, encode data sep = Raise e -> InvalidInputLength e) /\
  (Nat.even (List.length data) = true -> exists text, encode data sep = Ok text) /\
  encode [] sep = Ok "".
Proof.
  unfold Nat.odd.
  destruct (Nat.even (List.length data)) eqn:Hev.
  - rewrite (encode_even data sep Hev). repeat split.
    + intros [e He]. discriminate.
    + discriminate.
    + discriminate.
    + eexists; reflexivity.
  - rewrite (encode_odd data sep Hev). repeat split.
    + eexists; reflexivity.
    + intros e [= <-]. reflexivity.
    + discriminate.
Qed.

Lemma encode_fails_iff_odd_witness :
  (exists e, encode [x7f; x00; x00] default_sep = Raise e) /\
  (exists text, encode [x7f; x00] default_sep = Ok text).
Proof.
  split.
  - apply (proj1 (encode_fails_iff_odd [x7f; x00; x00] default_sep)).
    reflexivity.
  - apply (proj1 (proj2 (proj2 (encode_fails_iff_odd [x7f; x00] default_sep)))).
    reflexivity.
Defined.

(** C6. Lengths: a token has five characters; the text of [N > 0] words
    has [5*N + (N-1)*len(sep)] characters; the bytes that [decode] returns
    are twice as many as the pieces its text splits into. *)
Theorem length_invariants
    (x : Z) (data : list byte) (sep text : string) (out : list byte) :
  (0 <= x <= 65535 ->
   exists token, encode_uint16 x = Ok token /\ String.length token = 5%nat) /\
  (Nat.even (List.length data) = true -> (0 < List.length data / 2)%nat ->
   exists s, encode data sep = Ok s /\
     String.length s =
     (5 * (List.length data / 2) +
      (List.length data / 2 - 1) * String.length sep)%nat) /\
  (decode text sep = Ok out ->
   exists tokens, Py.split text sep = Ok tokens /\
     List.length out = (2 * List.length tokens)%nat).
Proof.
  split; [| split].
  - intros _. exists (token_of x). split; [apply encode_uint16_token | reflexivity].
  - intros Hev Hpos. rewrite (encode_even data sep Hev).
    eexists; split; [reflexivity |].
    rewrite <- Nat.div2_div in *. rewrite <- (chunks_count data Hev) in *.
    rewrite <- (length_map chunk_token) in *.
    apply join_length.
    + intros Hnil. rewrite Hnil in Hpos. inversion Hpos.
    + apply Forall_map, Forall_forall. intros chunk _. reflexivity.
  - unfold decode. destruct (Py.split text sep) as [tokens |]; cbn [bind];
      [| discriminate].
    intros H. exists tokens. split; [reflexivity |].
    apply decode_tokens_length in H. exact H.
Qed.

Lemma length_invariants_witness :
  (exists token, encode_uint16 32512 = Ok token /\ String.length token = 5%nat) /\
  (exists s, encode [x7f; x00; x00; x01] "::" = Ok s /\
     String.length s = (5 * 2 + (2 - 1) * 2)%nat) /\
  (exists tokens, Py.split "sinid-makam" "-" = Ok tokens /\
     List.length [xc6; x51; x81; x88] = (2 * List.length tokens)%nat).
Proof.
  pose proof (length_invariants 32512 [x7f; x00; x00; x01] "::" "sinid-makam"
                [xc6; x51; x81; x88]) as [_ [H2 _]].
  pose proof (length_invariants 32512 [x7f; x00; x00; x01] "-" "sinid-makam"
                [xc6; x51; x81; x88]) as [H1 [_ H3]].
  split; [| split].
  - apply H1. lia.
  - apply H2; [reflexivity | cbn; lia].
  - apply H3. vm_compute. reflexivity.
Defined.

(** C2, as the code has it. A buffer of even length that is not empty
    comes back from [decode] after [encode], for every separator that is not
    empty and holds no symbol of the alphabets. *)
Theorem round_trip_nonempty (data : list byte) (sep : string) :
  data <> [] ->
  Nat.even (List.length data) = true ->
  sep <> "" ->
  sep_outside_alphabets sep = true ->
  round_trip data sep = Ok data.
Proof.
  intros Hne Hev Hsep Hout. unfold round_trip.
  rewrite (encode_even data sep Hev). cbn [bind]. unfold decode.
  destruct sep as [| c0 sep']; [contradiction |].
  assert (Hc0 : Py.contains all_symbols c0 = false).
  { unfold sep_outside_alphabets in Hout. cbn [Py.iter list_ascii_of_string forallb] in Hout.
    apply andb_prop in Hout. destruct Hout as [Hout _].
    now apply negb_true_iff in Hout. }
  destruct (chunks_concat data Hev) as [Hconcat Hpairs].
  rewrite split_join.
  - cbn [bind]. rewrite (decode_chunk_tokens _ _ Hpairs), Hconcat. reflexivity.
  - destruct data as [| a [| b rest]]; [contradiction | discriminate |].
    rewrite chunks_two. discriminate.
  - apply Forall_map, Forall_forall. intros chunk _.
    apply token_avoids. exact Hc0.
Qed.

Lemma round_trip_nonempty_witness :
  round_trip [xc6; x51; x81; x88] "-" = Ok [xc6; x51; x81; x88].
Proof.
  apply (round_trip_nonempty [xc6; x51; x81; x88] "-");
    [discriminate | reflexivity | discriminate | reflexivity].
Defined.

(** C2, as stated, fails at the empty buffer with the default separator:
    [encode] returns the empty text, which [decode] splits into one empty
    piece and rejects for its length. *)
Lemma round_trip_empty_fails :
  Nat.even (List.length (@nil byte)) = true /\
  sep_outside_alphabets default_sep = true /\
  round_trip [] default_sep = Raise (AssertionError assert_proquint_length) /\
  round_trip [] default_sep <> Ok [].
Proof. vm_compute. repeat split; discriminate. Qed.

(** C10, as the code has it. With a separator that is not empty, [decode]
    of the empty text fails with the length assertion of [decode_uint16]
    on the single empty piece; with any separator it does not return the
    empty byte sequence, although [encode] of the empty input is the empty
    text. *)
Theorem decode_empty_text (sep : string) :
  (sep <> "" ->
   Py.split "" sep = Ok [""] /\
   exists e, decode "" sep = Raise e /\ InvalidLength e) /\
  decode "" sep <> Ok [] /\
  encode [] sep = Ok "".
Proof.
  destruct sep as [| c0 sep'].
  - split; [intros H; contradiction | split; [discriminate | reflexivity]].
  - split; [intros _; split; [reflexivity |] | split; [discriminate | reflexivity]].
    exists (AssertionError assert_proquint_length). split; reflexivity.
Qed.

Lemma decode_empty_text_witness :
  Py.split "" default_sep = Ok [""] /\
  exists e, decode "" default_sep = Raise e /\ InvalidLength e.
Proof.
  apply (proj1 (decode_empty_text default_sep)). discriminate.
Defined.

(** A separator made of alphabet symbols can break the round trip even
    when it is not a part of any token: "bb" cuts "lusab" ++ "bb" ++ "babad"
    one character early. *)
Lemma round_trip_colliding_separator :
  Py.split "lusabbbbabad" "bb" = Ok ["lusa"; ""; "abad"] /\
  round_trip [x7f; x00; x00; x01] "bb" =
    Raise (AssertionError assert_proquint_length).
Proof. split; vm_compute; reflexivity. Qed.

(** C10, as stated, fails at the empty separator: [split] raises before
    any piece reaches [decode_uint16]. *)
Lemma decode_empty_text_empty_sep :
  decode "" "" = Raise ValueError_empty_separator /\
  ~ InvalidLength ValueError_empty_separator.
Proof. split; [reflexivity | discriminate]. Qed.

(** * Further properties of the codec *)

(** ** Fields of a glued word *)

Lemma unglue_low (r i b : Z) :
  0 <= b -> 0 <= i < 2 ^ b ->
  Z.land (Z.lor (Z.shiftl r b) i) (2 ^ b - 1) = i.
Proof.
  intros Hb Hi.
  replace (2 ^ b - 1) with (Z.ones b) by (rewrite Z.ones_equiv; lia).
  rewrite Z.land_lor_distr_l, !Z.land_ones, Z.shiftl_mul_pow2 by assumption.
  rewrite Z.mod_mul by lia. rewrite Z.lor_0_l. apply Z.mod_small. assumption.
Qed.

Lemma unglue_high (r i b : Z) :
  0 <= b -> 0 <= i < 2 ^ b ->
  Z.shiftr (Z.lor (Z.shiftl r b) i) b = r.
Proof.
  intros Hb Hi.
  rewrite Z.shiftr_lor, Z.shiftr_shiftl_l, Z.sub_diag, Z.shiftl_0_r by assumption.
  rewrite (Z.shiftr_div_pow2 i) by assumption.
  rewrite Z.div_small by assumption. apply Z.lor_0_r.
Qed.

Lemma find_from_symbol (s : string) (c : ascii) (k i : Z) :
  Py.find_from s c k = Some i -> String.get (Z.to_nat (i - k)) s = Some c.
Proof.
  revert k. induction s as [| d s IH]; intros k H; simpl in H.
  - discriminate.
  - destruct (Ascii.eqb_spec c d) as [-> | Hne].
    + injection H as <-. rewrite Z.sub_diag. reflexivity.
    + pose proof (find_from_bounds _ _ _ _ H) as Hb.
      apply IH in H.
      replace (Z.to_nat (i - k)) with (S (Z.to_nat (i - (k + 1)))) by lia.
      exact H.
Qed.

(** What [alphabet.index(char)] returns is a position of [char]. *)
Lemma index_symbol_inv (s : string) (c : ascii) (i : Z) :
  Py.index s c = Ok i -> symbol s i = c /\ 0 <= i < Py.len s.
Proof.
  unfold Py.index. destruct (Py.find_from s c 0) as [j |] eqn:Hfind;
    [| discriminate].
  intros [= <-]. split.
  - apply find_from_symbol in Hfind. rewrite Z.sub_0_r in Hfind.
    unfold symbol. now rewrite Hfind.
  - apply find_from_bounds in Hfind. lia.
Qed.

(** A token that [decode_uint16] accepts, taken apart. *)
Lemma decode_uint16_ok_inv (proquint : string) (n : Z) :
  decode_uint16 proquint = Ok n ->
  exists c1 v1 c2 v2 c3 i1 j1 i2 j2 i3,
    proquint = String c1 (String v1 (String c2 (String v2 (String c3 "")))) /\
    Py.index consonants c1 = Ok i1 /\
    Py.index vowels v1 = Ok j1 /\
    Py.index consonants c2 = Ok i2 /\
    Py.index vowels v2 = Ok j2 /\
    Py.index consonants c3 = Ok i3 /\
    n = Z.lor (Z.shiftl (Z.lor (Z.shiftl (Z.lor (Z.shiftl (Z.lor (Z.shiftl
          (Z.lor (Z.shiftl 0 4) i1) 2) j1) 4) i2) 2) j2) 4) i3.
Proof.
  intros H.
  destruct (Z.eqb_spec (Py.len proquint) 5) as [Hlen | Hlen].
  - destruct (string_of_length_5 proquint Hlen) as (c1 & v1 & c2 & v2 & c3 & ->).
    exists c1, v1, c2, v2, c3.
    rewrite decode_uint16_five in H.
    destruct (forallb (Py.contains all_symbols) [c1; v1; c2; v2; c3]);
      cbn [py_assert bind] in H; [| discriminate].
    rewrite decode_step_C in H.
    destruct (Py.index consonants c1) as [i1 |]; cbn [bind] in H; [| discriminate].
    rewrite decode_step_V in H.
    destruct (Py.index vowels v1) as [j1 |]; cbn [bind] in H; [| discriminate].
    rewrite decode_step_C in H.
    destruct (Py.index consonants c2) as [i2 |]; cbn [bind] in H; [| discriminate].
    rewrite decode_step_V in H.
    destruct (Py.index vowels v2) as [j2 |]; cbn [bind] in H; [| discriminate].
    rewrite decode_step_C in H.
    destruct (Py.index consonants c3) as [i3 |]; cbn [bind] in H; [| discriminate].
    exists i1, j1, i2, j2, i3. injection H as <-. repeat split; reflexivity.
  - exfalso. unfold decode_uint16 in H.
    apply Z.eqb_neq in Hlen. rewrite Hlen in H. discriminate.
Qed.

(** The token of the word glued from five indices spells the five symbols. *)
Lemma token_of_glued (i1 j1 i2 j2 i3 : Z) :
  0 <= i1 < 16 -> 0 <= j1 < 4 -> 0 <= i2 < 16 -> 0 <= j2 < 4 -> 0 <= i3 < 16 ->
  token_of (Z.lor (Z.shiftl (Z.lor (Z.shiftl (Z.lor (Z.shiftl (Z.lor (Z.shiftl
      (Z.lor (Z.shiftl 0 4) i1) 2) j1) 4) i2) 2) j2) 4) i3) =
  String (symbol consonants i1) (String (symbol vowels j1)
    (String (symbol consonants i2) (String (symbol vowels j2)
      (String (symbol consonants i3) "")))).
Proof.
  intros H1 H2 H3 H4 H5. unfold token_of. cbv zeta.
  change 15 with (2 ^ 4 - 1). change 3 with (2 ^ 2 - 1).
  rewrite (unglue_low _ i3 4), (unglue_high _ i3 4) by lia.
  rewrite (unglue_low _ j2 2), (unglue_high _ j2 2) by lia.
  rewrite (unglue_low _ i2 4), (unglue_high _ i2 4) by lia.
  rewrite (unglue_low _ j1 2), (unglue_high _ j1 2) by lia.
  rewrite (unglue_low _ i1 4) by lia.
  reflexivity.
Qed.

Lemma encode_of_decoded (proquint : string) (n : Z) :
  decode_uint16 proquint = Ok n -> token_of n = proquint.
Proof.
  intros H.
  destruct (decode_uint16_ok_inv _ _ H)
    as (c1 & v1 & c2 & v2 & c3 & i1 & j1 & i2 & j2 & i3 &
        -> & E1 & E2 & E3 & E4 & E5 & ->).
  apply index_symbol_inv in E1, E2, E3, E4, E5.
  destruct E1 as [<- R1], E2 as [<- R2], E3 as [<- R3], E4 as [<- R4],
    E5 as [<- R5].
  apply token_of_glued; assumption.
Qed.

Lemma decoded_range (proquint : string) (n : Z) :
  decode_uint16 proquint = Ok n -> 0 <= n < 65536.
Proof.
  intros H. pose proof (encode_of_decoded _ _ H) as Htok.
  rewrite <- Htok, decode_token_of in H. injection H as H.
  rewrite <- H. apply Z.mod_pos_bound. lia.
Qed.

Lemma well_formed_five (c1 v1 c2 v2 c3 : ascii) :
  well_formed (String c1 (String v1 (String c2 (String v2 (String c3 ""))))) =
  Py.contains consonants c1 && (Py.contains vowels v1 &&
    (Py.contains consonants c2 && (Py.contains vowels v2 &&
      (Py.contains consonants c3 && true)))).
Proof. reflexivity. Qed.

Lemma index_ok_contains (s : string) (c : ascii) (i : Z) :
  Py.index s c = Ok i -> Py.contains s c = true.
Proof.
  intros H. destruct (index_cases s c) as [[Hc _] | [_ Hr]];
    [assumption | congruence].
Qed.

(** ** Words and tokens, continued *)

(** X1. [decode_uint16] returns a value exactly on the tokens of five
    characters whose slots hold a consonant, a vowel, a consonant, a vowel
    and a consonant symbol; on every other string it raises. *)
Theorem decode_uint16_accepts_iff (proquint : string) :
  (exists n, decode_uint16 proquint = Ok n) <-> well_formed proquint = true.
Proof.
  split.
  - intros [n H].
    destruct (decode_uint16_ok_inv _ _ H)
      as (c1 & v1 & c2 & v2 & c3 & i1 & j1 & i2 & j2 & i3 &
          -> & E1 & E2 & E3 & E4 & E5 & _).
    rewrite well_formed_five.
    rewrite (index_ok_contains _ _ _ E1), (index_ok_contains _ _ _ E2),
      (index_ok_contains _ _ _ E3), (index_ok_contains _ _ _ E4),
      (index_ok_contains _ _ _ E5).
    reflexivity.
  - intros H. unfold well_formed in H. apply andb_prop in H as [Hlen Hall].
    apply Z.eqb_eq in Hlen.
    destruct (string_of_length_5 proquint Hlen) as (c1 & v1 & c2 & v2 & c3 & ->).
    assert (Hwf : well_formed
              (String c1 (String v1 (String c2 (String v2 (String c3 ""))))) = true).
    { unfold well_formed. now rewrite Hall. }
    rewrite well_formed_five in Hwf.
    apply andb_prop in Hwf as [H1 Hwf]. apply andb_prop in Hwf as [H2 Hwf].
    apply andb_prop in Hwf as [H3 Hwf]. apply andb_prop in Hwf as [H4 Hwf].
    apply andb_prop in Hwf as [H5 _].
    apply decode_uint16_well_formed; assumption.
Qed.

Lemma decode_uint16_accepts_iff_witness :
  (exists n, decode_uint16 "zuzuz" = Ok n) /\ well_formed "lusab" = true.
Proof.
  split.
  - apply (proj2 (decode_uint16_accepts_iff "zuzuz")). reflexivity.
  - apply (proj1 (decode_uint16_accepts_iff "lusab")).
    exists 32512. reflexivity.
Defined.

(** X2. Whatever [decode_uint16] returns is an unsigned 16-bit value, and
    encoding it gives the decoded token back:
    [encode_uint16(decode_uint16(t)) == t]. *)
Theorem encode_decode_uint16 (proquint : string) (n : Z) :
  decode_uint16 proquint = Ok n ->
  0 <= n <= 65535 /\ encode_uint16 n = Ok proquint.
Proof.
  intros H. split.
  - pose proof (decoded_range _ _ H). lia.
  - rewrite encode_uint16_token. f_equal. apply encode_of_decoded. exact H.
Qed.

Lemma encode_decode_uint16_witness :
  0 <= 50769 <= 65535 /\ encode_uint16 50769 = Ok "sinid".
Proof. apply (encode_decode_uint16 "sinid" 50769). reflexivity. Defined.

(** X3. On every integer, negative or beyond 16 bits, [encode_uint16]
    returns a token, and [decode_uint16] of that token is the argument
    modulo 65536. *)
Theorem decode_encode_any_int (x : Z) :
  exists token,
    encode_uint16 x = Ok token /\ decode_uint16 token = Ok (x mod 65536).
Proof.
  exists (token_of x). split; [apply encode_uint16_token | apply decode_token_of].
Qed.

(** X4. Each entry of [ALPHABET] lists [2 ** bits] symbols without a
    repetition: indexing the alphabet at [i] in [0, 2 ** bits) returns a
    symbol whose [index] in the alphabet is [i] again. *)
Theorem alphabet_index_getitem (position : ascii) (alphabet : string) (bits i : Z) :
  dict_get ALPHABET position = Ok (alphabet, bits) ->
  0 <= i < 2 ^ bits ->
  exists c, Py.getitem alphabet i = Ok c /\ Py.index alphabet c = Ok i.
Proof.
  intros Hget Hi. unfold ALPHABET in Hget. cbn [dict_get] in Hget.
  exists (symbol alphabet i).
  destruct (Ascii.eqb position "C").
  - injection Hget as <- <-. fold consonants. split.
    + apply getitem_in_range. exact Hi.
    + apply index_symbol; [exact nodup_consonants | exact Hi].
  - destruct (Ascii.eqb position "V"); [| discriminate].
    injection Hget as <- <-. fold vowels. split.
    + apply getitem_in_range. exact Hi.
    + apply index_symbol; [exact nodup_vowels | exact Hi].
Qed.

Lemma alphabet_index_getitem_witness :
  exists c, Py.getitem "aiou" 3 = Ok c /\ Py.index "aiou" c = Ok 3.
Proof.
  apply (alphabet_index_getitem "V"%char "aiou" 2 3); [reflexivity | lia].
Defined.

(** ** Two bytes of a word *)

Lemma byte_of_small (z : Z) :
  0 <= z < 256 ->
  exists y, Byte.of_N (Z.to_N z) = Some y /\ Py.byte_val y = z.
Proof.
  intros Hz. destruct (Byte.of_N (Z.to_N z)) as [y |] eqn:Hy.
  - exists y. split; [reflexivity |].
    apply Byte.to_of_N in Hy. unfold Py.byte_val. rewrite Hy. lia.
  - apply Byte.of_N_None_iff in Hy. lia.
Qed.

Lemma to_bytes_big_two (n : Z) :
  0 <= n < 65536 ->
  exists a b, Py.to_bytes_big n 2 = Ok [a; b] /\ Py.from_bytes_big [a; b] = n.
Proof.
  intros Hn.
  assert (Hhi : 0 <= n / 256 < 256)
    by (split; [apply Z.div_pos; lia | apply Z.div_lt_upper_bound; lia]).
  pose proof (Z.mod_pos_bound n 256 ltac:(lia)) as Hlo.
  destruct (byte_of_small (n mod 256) Hlo) as (b & Eb & Vb).
  destruct (byte_of_small (n / 256) Hhi) as (a & Ea & Va).
  exists a, b. split.
  - unfold Py.to_bytes_big.
    destruct (Z.ltb_spec n 0) as [Hneg | _]; [lia |].
    cbn [Py.to_bytes_little].
    rewrite Eb, (Z.mod_small (n / 256)), Ea, (Z.div_small (n / 256)) by lia.
    reflexivity.
  - rewrite from_bytes_big_two, Va, Vb.
    pose proof (Z.div_mod n 256 ltac:(lia)). lia.
Qed.

Lemma from_bytes_big_two_inj (a b c d : byte) :
  Py.from_bytes_big [a; b] = Py.from_bytes_big [c; d] -> a = c /\ b = d.
Proof.
  intros H. pose proof (to_bytes_from_bytes a b) as Hab.
  rewrite H, to_bytes_from_bytes in Hab. injection Hab as -> ->. now split.
Qed.

(** ** The outcomes of [decode] *)

Lemma decode_uint16_outcome (proquint : string) :
  (exists n, decode_uint16 proquint = Ok n /\ 0 <= n < 65536) \/
  (exists e, decode_uint16 proquint = Raise e /\
             (InvalidLength e \/ InvalidSymbol e)).
Proof.
  destruct (decode_uint16 proquint) as [n | e] eqn:H.
  - left. exists n. split; [reflexivity | eapply decoded_range; eassumption].
  - right. exists e. split; [reflexivity |].
    destruct (Z.eqb_spec (Py.len proquint) 5) as [Hlen | Hlen].
    + right.
      destruct (string_of_length_5 proquint Hlen) as (c1 & v1 & c2 & v2 & c3 & ->).
      rewrite decode_uint16_five in H. unfold InvalidSymbol.
      destruct (forallb (Py.contains all_symbols) [c1; v1; c2; v2; c3]);
        cbn [py_assert bind] in H; [| left; congruence].
      right.
      rewrite decode_step_C in H.
      destruct (index_cases consonants c1) as [(_ & i1 & E & _) | (_ & E)];
        rewrite E in H; cbn [bind] in H; [| congruence].
      rewrite decode_step_V in H.
      destruct (index_cases vowels v1) as [(_ & j1 & E1 & _) | (_ & E1)];
        rewrite E1 in H; cbn [bind] in H; [| congruence].
      rewrite decode_step_C in H.
      destruct (index_cases consonants c2) as [(_ & i2 & E2 & _) | (_ & E2)];
        rewrite E2 in H; cbn [bind] in H; [| congruence].
      rewrite decode_step_V in H.
      destruct (index_cases vowels v2) as [(_ & j2 & E3 & _) | (_ & E3)];
        rewrite E3 in H; cbn [bind] in H; [| congruence].
      rewrite decode_step_C in H.
      destruct (index_cases consonants c3) as [(_ & i3 & E4 & _) | (_ & E4)];
        rewrite E4 in H; cbn [bind] in H; [discriminate | congruence].
    + left. unfold decode_uint16 in H.
      apply Z.eqb_neq in Hlen. rewrite Hlen in H.
      cbn [py_assert bind] in H. unfold InvalidLength. congruence.
Qed.

(** One turn of the loop of [decode] on a piece that decodes. *)
Lemma decode_token_ok (acc : list byte) (proquint : string) (n : Z) :
  decode_uint16 proquint = Ok n ->
  exists a b,
    decode_token acc proquint = Ok (acc ++ [a; b])%list /\
    chunk_token [a; b] = proquint.
Proof.
  intros H. destruct (to_bytes_big_two n (decoded_range _ _ H)) as (a & b & Hto & Hfrom).
  exists a, b. split.
  - unfold decode_token. rewrite H. cbn [bind]. rewrite Hto. reflexivity.
  - unfold chunk_token. rewrite Hfrom. apply encode_of_decoded. exact H.
Qed.

Lemma decode_tokens_failure (pieces : list string) (acc : list byte) (e : exn) :
  for_each decode_token pieces acc = Raise e ->
  InvalidLength e \/ InvalidSymbol e.
Proof.
  revert acc. induction pieces as [| p pieces IH]; intros acc H; cbn [for_each] in H.
  - discriminate.
  - destruct (decode_uint16_outcome p) as [(n & Hn & _) | (e' & He' & Hkind)].
    + destruct (decode_token_ok acc p n Hn) as (a & b & Hstep & _).
      rewrite Hstep in H. cbn [bind] in H. eapply IH. eassumption.
    + unfold decode_token in H at 1. rewrite He' in H. cbn [bind] in H.
      injection H as <-. exact Hkind.
Qed.

(** The pieces that [decode] accepted, as the chunks of its result. *)
Lemma decode_tokens_inv (pieces : list string) (acc data : list byte) :
  for_each decode_token pieces acc = Ok data ->
  exists pairs,
    data = (acc ++ List.concat pairs)%list /\
    Forall (fun chunk => List.length chunk = 2%nat) pairs /\
    map chunk_token pairs = pieces.
Proof.
  revert acc. induction pieces as [| p pieces IH]; intros acc H; cbn [for_each] in H.
  - injection H as <-. exists []. cbn. rewrite app_nil_r. repeat split. constructor.
  - destruct (decode_uint16_outcome p) as [(n & Hn & _) | (e' & He' & _)].
    + destruct (decode_token_ok acc p n Hn) as (a & b & Hstep & Htok).
      rewrite Hstep in H. cbn [bind] in H.
      destruct (IH _ H) as (pairs & -> & Hall & Hmap).
      exists ([a; b] :: pairs). repeat split.
      * cbn [List.concat]. now rewrite <- app_assoc.
      * constructor; [reflexivity | exact Hall].
      * cbn [map]. now rewrite Htok, Hmap.
    + unfold decode_token in H at 1. rewrite He' in H. discriminate.
Qed.

(** ** [join] after [split] *)

Lemma split_scan_nonempty (sep : string) (s : string) (k : nat) (cur : string) :
  Py.split_scan sep k cur s <> [].
Proof.
  revert k cur. induction s as [| c s IH]; intros k cur; cbn [Py.split_scan].
  - discriminate.
  - destruct k as [| k]; [| apply IH].
    destruct (String.prefix sep (String c s)); [discriminate | apply IH].
Qed.

Lemma prefix_split (a b : string) :
  String.prefix a b = true -> exists r, b = a ++ r.
Proof.
  revert b. induction a as [| c a IH]; intros b H.
  - exists b. reflexivity.
  - destruct b as [| d b]; cbn [String.prefix] in H; [discriminate |].
    destruct (ascii_dec c d) as [<- | _]; [| discriminate].
    destruct (IH b H) as [r ->]. exists r. reflexivity.
Qed.

Lemma join_split_scan (sep : string) (n : nat) :
  sep <> "" ->
  forall rest cur, (String.length rest <= n)%nat ->
    Py.join sep (Py.split_scan sep 0 cur rest) = cur ++ rest.
Proof.
  intros Hsep. induction n as [| n IH]; intros rest cur Hlen.
  - destruct rest; [| cbn in Hlen; lia].
    cbn [Py.split_scan]. now rewrite str_app_nil_r.
  - destruct rest as [| c s'].
    + cbn [Py.split_scan]. now rewrite str_app_nil_r.
    + destruct (String.prefix sep (String c s')) eqn:Hp.
      * destruct (prefix_split _ _ Hp) as [r Hr]. rewrite Hr.
        rewrite split_scan_sep by assumption.
        assert (Hr_len : (String.length r <= n)%nat).
        { apply (f_equal String.length) in Hr. rewrite str_length_app in Hr.
          cbn [String.length] in Hr, Hlen.
          destruct sep; [contradiction | cbn [String.length] in Hr; lia]. }
        pose proof (IH r "" Hr_len) as Hrest.
        destruct (Py.split_scan sep 0 "" r) as [| u ts] eqn:Hscan.
        { exfalso. eapply split_scan_nonempty. eassumption. }
        rewrite join_cons, Hrest. reflexivity.
      * cbn [Py.split_scan]. rewrite Hp.
        rewrite IH by (cbn [String.length] in Hlen; lia).
        now rewrite str_app_assoc.
Qed.

Lemma join_split (text sep : string) (pieces : list string) :
  Py.split text sep = Ok pieces ->
  pieces <> [] /\ Py.join sep pieces = text.
Proof.
  unfold Py.split. destruct sep as [| c0 sep']; [discriminate |].
  intros [= <-]. split.
  - apply split_scan_nonempty.
  - apply (join_split_scan _ (String.length text)); [discriminate | lia].
Qed.

Lemma chunks_of_pairs (pairs : list (list byte)) :
  Forall (fun chunk => List.length chunk = 2%nat) pairs ->
  chunks (List.concat pairs) = pairs /\
  Nat.even (List.length (List.concat pairs)) = true.
Proof.
  induction 1 as [| chunk pairs Hlen _ [IHc IHe]]; [now split |].
  destruct chunk as [| a [| b [| ? ?]]]; try discriminate.
  cbn [List.concat app]. rewrite chunks_two, IHc. split; [reflexivity |].
  cbn [List.length Nat.even]. exact IHe.
Qed.

(** A text that [decode] accepted: its pieces are the tokens of the chunks
    of the result. *)
Lemma decode_ok_inv (text sep : string) (data : list byte) :
  decode text sep = Ok data ->
  exists pairs,
    pairs <> [] /\
    Forall (fun chunk => List.length chunk = 2%nat) pairs /\
    data = List.concat pairs /\
    text = Py.join sep (map chunk_token pairs).
Proof.
  unfold decode. destruct (Py.split text sep) as [pieces |] eqn:Hsplit;
    cbn [bind]; [| discriminate].
  intros H. destruct (decode_tokens_inv _ _ _ H) as (pairs & Hdata & Hall & Hmap).
  destruct (join_split _ _ _ Hsplit) as [Hne Hjoin].
  exists pairs. repeat split.
  - intros ->. apply Hne. now rewrite <- Hmap.
  - exact Hall.
  - exact Hdata.
  - now rewrite Hmap.
Qed.

Lemma join_last (sep : string) (init : list string) (p : string) :
  exists body, Py.join sep (init ++ [p]) = body ++ p.
Proof.
  induction init as [| t init [body IH]].
  - exists "". reflexivity.
  - destruct init as [| u init]; cbn [app] in *.
    + exists (t ++ sep). rewrite join_cons. now rewrite str_app_assoc.
    + exists (t ++ sep ++ body). rewrite join_cons, IH.
      now rewrite !str_app_assoc.
Qed.

Lemma str_app_last_inj (s t : string) (a b : ascii) :
  s ++ String a "" = t ++ String b "" -> a = b.
Proof.
  revert t. induction s as [| c s IH]; intros t H; destruct t as [| d t];
    cbn [append] in H.
  - congruence.
  - injection H as _ H. destruct t; discriminate.
  - injection H as _ H. destruct s; discriminate.
  - injection H as _ H. eapply IH. eassumption.
Qed.

Lemma str_app_inj (a b r r' : string) :
  String.length a = String.length b -> a ++ r = b ++ r' -> a = b /\ r = r'.
Proof.
  revert b. induction a as [| c a IH]; intros b Hlen H; destruct b as [| d b];
    cbn [String.length append] in *; try discriminate.
  - now split.
  - injection H as <- H. injection Hlen as Hlen.
    destruct (IH b Hlen H) as [-> ->]. now split.
Qed.

Lemma chunks_app (a b : list byte) :
  Nat.even (List.length a) = true -> chunks (a ++ b) = (chunks a ++ chunks b)%list.
Proof.
  induction a as [| x | x y rest IH] using pair_induction; intros Hev.
  - reflexivity.
  - discriminate.
  - cbn [app]. rewrite !chunks_two, IH by exact Hev. reflexivity.
Qed.

Lemma join_app (sep : string) (l1 l2 : list string) :
  l1 <> [] -> l2 <> [] ->
  Py.join sep (l1 ++ l2) = Py.join sep l1 ++ sep ++ Py.join sep l2.
Proof.
  intros H1 H2. induction l1 as [| t l1 IH]; [contradiction |].
  destruct l1 as [| u l1].
  - destruct l2 as [| v l2]; [contradiction |]. reflexivity.
  - cbn [app] in *. rewrite !join_cons, IH by discriminate.
    now rewrite !str_app_assoc.
Qed.

Lemma chunk_token_length (chunk : list byte) :
  String.length (chunk_token chunk) = 5%nat.
Proof. reflexivity. Qed.

Lemma chunk_token_inj (a b c d : byte) :
  chunk_token [a; b] = chunk_token [c; d] -> a = c /\ b = d.
Proof.
  unfold chunk_token. intros H.
  apply (f_equal decode_uint16) in H. rewrite !decode_token_of in H.
  injection H as H.
  pose proof (byte_val_range a). pose proof (byte_val_range b).
  pose proof (byte_val_range c). pose proof (byte_val_range d).
  rewrite !Z.mod_small in H by (rewrite from_bytes_big_two; lia).
  apply from_bytes_big_two_inj. exact H.
Qed.

(** Texts of five-character pieces are equal only when the pieces are. *)
Lemma join_tokens_inj (sep : string) (l1 l2 : list string) :
  Forall (fun t => String.length t = 5%nat) l1 ->
  Forall (fun t => String.length t = 5%nat) l2 ->
  Py.join sep l1 = Py.join sep l2 -> l1 = l2.
Proof.
  intros H1. revert l2. induction H1 as [| t ts Ht Hts IH]; intros l2 H2 H.
  - destruct H2 as [| u us Hu Hus]; [reflexivity |].
    exfalso. apply (f_equal String.length) in H.
    destruct us; [change (Py.join sep [u]) with u in H
                 | rewrite join_cons, !str_length_app in H];
      cbn [Py.join String.concat String.length] in H; lia.
  - destruct H2 as [| u us Hu Hus].
    + exfalso. apply (f_equal String.length) in H.
      destruct ts; [change (Py.join sep [t]) with t in H
                   | rewrite join_cons, !str_length_app in H];
        cbn [Py.join String.concat String.length] in H; lia.
    + assert (Hhead : forall x xs,
                 exists r, Py.join sep (x :: xs) = x ++ r /\
                   (xs = [] -> r = "") /\
                   (xs <> [] -> r = sep ++ Py.join sep xs)).
      { intros x [| y ys].
        - exists "". change (Py.join sep [x]) with x.
          rewrite str_app_nil_r. repeat split. intros Hc. now contradiction Hc.
        - exists (sep ++ Py.join sep (y :: ys)). rewrite join_cons.
          repeat split. discriminate. }
      destruct (Hhead t ts) as (r1 & E1 & N1 & C1).
      destruct (Hhead u us) as (r2 & E2 & N2 & C2).
      rewrite E1, E2 in H.
      destruct (str_app_inj t u r1 r2 ltac:(congruence) H) as [-> Hr].
      f_equal. apply IH; [exact Hus |].
      destruct ts as [| t' ts'], us as [| u' us']; [reflexivity | | |].
      * exfalso. rewrite (N1 eq_refl), (C2 ltac:(discriminate)) in Hr.
        apply (f_equal String.length) in Hr. rewrite str_length_app in Hr.
        inversion Hus as [| ? ? Hu' _]; subst.
        destruct us'; [change (Py.join sep [u']) with u' in Hr
                      | rewrite join_cons, !str_length_app in Hr];
          cbn [String.length] in Hr; lia.
      * exfalso. rewrite (C1 ltac:(discriminate)), (N2 eq_refl) in Hr.
        apply (f_equal String.length) in Hr. rewrite str_length_app in Hr.
        inversion Hts as [| ? ? Ht' _]; subst.
        destruct ts'; [change (Py.join sep [t']) with t' in Hr
                      | rewrite join_cons, !str_length_app in Hr];
          cbn [String.length] in Hr; lia.
      * rewrite (C1 ltac:(discriminate)), (C2 ltac:(discriminate)) in Hr.
        apply (str_app_inj sep sep _ _ eq_refl) in Hr. apply Hr.
Qed.

Lemma chunk_tokens_inj (l1 l2 : list (list byte)) :
  Forall (fun chunk => List.length chunk = 2%nat) l1 ->
  Forall (fun chunk => List.length chunk = 2%nat) l2 ->
  map chunk_token l1 = map chunk_token l2 -> l1 = l2.
Proof.
  intros H1. revert l2. induction H1 as [| x xs Hx _ IH]; intros l2 H2 H;
    destruct H2 as [| y ys Hy Hys]; cbn [map] in H; try discriminate.
  - reflexivity.
  - assert (Hhead : chunk_token x = chunk_token y)
      by exact (f_equal (hd "") H).
    assert (Htail : map chunk_token xs = map chunk_token ys)
      by exact (f_equal (@tl string) H).
    destruct x as [| a [| b [| ? ?]]]; try discriminate.
    destruct y as [| c [| d [| ? ?]]]; try discriminate.
    destruct (chunk_token_inj _ _ _ _ Hhead) as [-> ->].
    f_equal. apply IH; assumption.
Qed.

Lemma decode_tokens_app (pre rest : list string) (acc : list byte) :
  Forall (fun p => exists n, decode_uint16 p = Ok n) pre ->
  exists acc',
    for_each decode_token (pre ++ rest) acc = for_each decode_token rest acc'.
Proof.
  intros Hpre. revert acc.
  induction Hpre as [| p pre [n Hn] _ IH]; intros acc; cbn [app for_each].
  - now exists acc.
  - destruct (decode_token_ok acc p n Hn) as (a & b & Hstep & _).
    rewrite Hstep. cbn [bind]. apply IH.
Qed.

(** ** Buffers and texts, continued *)

(** X5. [decode] fails in three ways only: [split] refuses an empty
    separator, a piece is not five characters long, or a piece holds a
    character that is not a symbol of its slot. The conversion of a decoded
    word to two bytes never overflows, and no lookup in [ALPHABET] fails. *)
Theorem decode_failures (text sep : string) (e : exn) :
  decode text sep = Raise e ->
  (sep = "" /\ e = ValueError_empty_separator) \/
  (sep <> "" /\ (InvalidLength e \/ InvalidSymbol e)).
Proof.
  unfold decode, Py.split. destruct sep as [| c0 sep']; cbn [bind].
  - intros [= <-]. left. now split.
  - intros H. right. split; [discriminate |].
    eapply decode_tokens_failure. eassumption.
Qed.

Lemma decode_failures_witness :
  ("-" = "" /\ AssertionError assert_proquint_symbols = ValueError_empty_separator) \/
  ("-" <> "" /\ (InvalidLength (AssertionError assert_proquint_symbols) \/
                 InvalidSymbol (AssertionError assert_proquint_symbols))).
Proof.
  apply (decode_failures "lusab-bawab" "-"). reflexivity.
Defined.

(** X6. A text that [decode] accepts is the text [encode] writes for the
    decoded bytes, with the same separator:
    [encode(decode(t, sep), sep) == t]. *)
Theorem encode_decode (text sep : string) (data : list byte) :
  decode text sep = Ok data -> encode data sep = Ok text.
Proof.
  intros H. destruct (decode_ok_inv _ _ _ H) as (pairs & _ & Hall & -> & ->).
  destruct (chunks_of_pairs pairs Hall) as [Hchunks Hev].
  rewrite (encode_even _ sep Hev), Hchunks. reflexivity.
Qed.

Lemma encode_decode_witness :
  encode [xc6; x51; x81; x88] "-" = Ok "sinid-makam".
Proof.
  apply (encode_decode "sinid-makam" "-" [xc6; x51; x81; x88]). reflexivity.
Defined.

(** X7. What [decode] returns is never empty and has an even number of
    bytes, and the text it was given ends with a consonant symbol. *)
Theorem decode_ok_shape (text sep : string) (data : list byte) :
  decode text sep = Ok data ->
  data <> [] /\
  Nat.even (List.length data) = true /\
  exists body c, text = body ++ String c "" /\ Py.contains consonants c = true.
Proof.
  intros H. destruct (decode_ok_inv _ _ _ H) as (pairs & Hne & Hall & -> & ->).
  split; [| split].
  - destruct pairs as [| chunk pairs]; [contradiction |].
    inversion Hall as [| ? ? Hlen _]; subst.
    destruct chunk; [discriminate | cbn; discriminate].
  - apply chunks_of_pairs. exact Hall.
  - destruct (exists_last Hne) as (init & chunk & ->).
    rewrite map_app. cbn [map].
    destruct (join_last sep (map chunk_token init) (chunk_token chunk))
      as [body ->].
    unfold chunk_token, token_of. cbv zeta.
    match goal with
    | |- context [String ?a (String ?b (String ?c (String ?d (String ?e "")))) ] =>
        exists (body ++ String a (String b (String c (String d "")))), e
    end.
    split.
    + rewrite str_app_assoc. reflexivity.
    + apply contains_symbol.
      change 15 with (2 ^ 4 - 1). change (Py.len consonants) with (2 ^ 4).
      apply land_mask_range. lia.
Qed.

Lemma decode_ok_shape_witness :
  [xc6; x51; x81; x88] <> [] /\
  Nat.even (List.length [xc6; x51; x81; x88]) = true /\
  exists body c,
    "sinid-makam" = body ++ String c "" /\ Py.contains consonants c = true.
Proof.
  apply (decode_ok_shape "sinid-makam" "-" [xc6; x51; x81; x88]). reflexivity.
Defined.

(** X8. [decode] rejects every text whose last character is not a
    consonant symbol, with any separator: a text that ends with a newline
    (a line as read from standard input), a space or a vowel is refused. *)
Theorem decode_rejects_trailing (text sep : string) (c : ascii) :
  Py.contains consonants c = false ->
  exists e, decode (text ++ String c "") sep = Raise e.
Proof.
  intros Hc. destruct (decode (text ++ String c "") sep) as [data | e] eqn:H.
  - exfalso. destruct (decode_ok_inv _ _ _ H) as (pairs & Hne & _ & _ & Htext).
    destruct (exists_last Hne) as (init & chunk & ->).
    rewrite map_app in Htext. cbn [map] in Htext.
    destruct (join_last sep (map chunk_token init) (chunk_token chunk))
      as [body Hbody].
    rewrite Hbody in Htext. unfold chunk_token, token_of in Htext.
    cbv zeta in Htext.
    match type of Htext with
    | _ = _ ++ String ?a (String ?b (String ?c' (String ?d (String ?e "")))) =>
        change (body ++ String a (String b (String c' (String d (String e "")))))
          with (body ++ (String a (String b (String c' (String d ""))) ++ String e ""))
          in Htext;
        rewrite <- str_app_assoc in Htext;
        apply str_app_last_inj in Htext;
        assert (Hin : Py.contains consonants e = true)
    end.
    { apply contains_symbol.
      change 15 with (2 ^ 4 - 1). change (Py.len consonants) with (2 ^ 4).
      apply land_mask_range. lia. }
    rewrite <- Htext in Hin. congruence.
  - exists e. reflexivity.
Qed.

Lemma decode_rejects_trailing_witness :
  exists e, decode ("lusab-babad" ++ String "010"%char "") "-" = Raise e.
Proof.
  apply (decode_rejects_trailing "lusab-babad" "-" "010"%char). reflexivity.
Defined.

(** X9. [encode] of two buffers put end to end is the two texts joined by
    the separator, when both buffers are of even length and not empty. *)
Theorem encode_app (a b : list byte) (sep : string) :
  a <> [] -> b <> [] ->
  Nat.even (List.length a) = true -> Nat.even (List.length b) = true ->
  exists ta tb,
    encode a sep = Ok ta /\ encode b sep = Ok tb /\
    encode (a ++ b) sep = Ok (ta ++ sep ++ tb).
Proof.
  intros Ha Hb Hea Heb.
  assert (Hne : forall d, d <> [] -> Nat.even (List.length d) = true ->
                          map chunk_token (chunks d) <> []).
  { intros d Hd Hev. destruct d as [| x [| y rest]];
      [contradiction | discriminate |].
    rewrite chunks_two. discriminate. }
  assert (Heab : Nat.even (List.length (a ++ b)) = true).
  { rewrite length_app, Nat.even_add, Hea, Heb. reflexivity. }
  rewrite (encode_even a sep Hea), (encode_even b sep Heb),
    (encode_even (a ++ b) sep Heab).
  do 2 eexists. repeat split.
  rewrite chunks_app, map_app by exact Hea.
  rewrite join_app by (apply Hne; assumption). reflexivity.
Qed.

Lemma encode_app_witness :
  exists ta tb,
    encode [x7f; x00] ":" = Ok ta /\ encode [x00; x01] ":" = Ok tb /\
    encode ([x7f; x00] ++ [x00; x01]) ":" = Ok (ta ++ ":" ++ tb).
Proof.
  apply (encode_app [x7f; x00] [x00; x01] ":");
    [discriminate | discriminate | reflexivity | reflexivity].
Defined.

(** X10. [decode] stops at the first piece that [decode_uint16] refuses
    and raises that piece's exception; nothing of the pieces decoded before
    it is returned. *)
Theorem decode_first_failure
    (text sep : string) (pre post : list string) (t : string) (e : exn) :
  Py.split text sep = Ok (pre ++ t :: post)%list ->
  Forall (fun p => exists n, decode_uint16 p = Ok n) pre ->
  decode_uint16 t = Raise e ->
  decode text sep = Raise e.
Proof.
  intros Hsplit Hpre Ht. unfold decode. rewrite Hsplit. cbn [bind].
  destruct (decode_tokens_app pre (t :: post) [] Hpre) as [acc' ->].
  cbn [for_each]. unfold decode_token at 1. rewrite Ht. reflexivity.
Qed.

Lemma decode_first_failure_witness :
  decode "lusab-xx-w" "-" = Raise (AssertionError assert_proquint_length).
Proof.
  apply (decode_first_failure "lusab-xx-w" "-" ["lusab"] ["w"] "xx").
  - reflexivity.
  - constructor; [exists 32512; reflexivity | constructor].
  - reflexivity.
Defined.

(** X11. [encode] is injective for every separator, also one that makes
    the text ambiguous for [decode]: two buffers with the same text are the
    same buffer. *)
Theorem encode_injective (a b : list byte) (sep text : string) :
  encode a sep = Ok text -> encode b sep = Ok text -> a = b.
Proof.
  intros Ha Hb.
  destruct (Nat.even (List.length a)) eqn:Hea;
    [| rewrite (encode_odd a sep Hea) in Ha; discriminate].
  destruct (Nat.even (List.length b)) eqn:Heb;
    [| rewrite (encode_odd b sep Heb) in Hb; discriminate].
  rewrite (encode_even a sep Hea) in Ha. rewrite (encode_even b sep Heb) in Hb.
  injection Ha as Ha. injection Hb as Hb.
  destruct (chunks_concat a Hea) as [Hca Hpa].
  destruct (chunks_concat b Heb) as [Hcb Hpb].
  assert (Hfive : forall l, Forall (fun t => String.length t = 5%nat)
                              (map chunk_token l)).
  { intros l. apply Forall_map, Forall_forall. intros chunk _. reflexivity. }
  assert (Htok : map chunk_token (chunks a) = map chunk_token (chunks b)).
  { apply (join_tokens_inj sep); [apply Hfive | apply Hfive | congruence]. }
  apply chunk_tokens_inj in Htok; [| assumption | assumption].
  rewrite <- Hca, <- Hcb, Htok. reflexivity.
Qed.

Lemma encode_injective_witness : [x7f; x00; x00; x01] = [x7f; x00; x00; x01].
Proof.
  apply (encode_injective [x7f; x00; x00; x01] [x7f; x00; x00; x01]
           "bb" "lusabbbbabad"); reflexivity.
Defined.

(** X12. With a separator that is not empty and holds no alphabet symbol,
    [decode] of two accepted texts joined by the separator is the two
    results put end to end. *)
Theorem decode_app (t1 t2 sep : string) (d1 d2 : list byte) :
  sep <> "" ->
  sep_outside_alphabets sep = true ->
  decode t1 sep = Ok d1 -> decode t2 sep = Ok d2 ->
  decode (t1 ++ sep ++ t2) sep = Ok (d1 ++ d2)%list.
Proof.
  intros Hsep Hout H1 H2.
  destruct (decode_ok_inv _ _ _ H1) as (p1 & Hn1 & Hall1 & -> & ->).
  destruct (decode_ok_inv _ _ _ H2) as (p2 & Hn2 & Hall2 & -> & ->).
  destruct sep as [| c0 sep']; [contradiction |].
  assert (Hc0 : Py.contains all_symbols c0 = false).
  { unfold sep_outside_alphabets in Hout.
    cbn [Py.iter list_ascii_of_string forallb] in Hout.
    apply andb_prop in Hout. destruct Hout as [Hout _].
    now apply negb_true_iff in Hout. }
  rewrite <- join_app, <- map_app
    by (intros Hnil; apply map_eq_nil in Hnil; contradiction).
  unfold decode. rewrite split_join.
  - cbn [bind]. rewrite decode_chunk_tokens, concat_app.
    + reflexivity.
    + apply Forall_app. now split.
  - intros Hnil. apply map_eq_nil, app_eq_nil in Hnil. destruct Hnil. contradiction.
  - apply Forall_map, Forall_forall. intros chunk _.
    apply token_avoids. exact Hc0.
Qed.

Lemma decode_app_witness :
  decode ("lusab" ++ "-" ++ "babad") "-" = Ok ([x7f; x00] ++ [x00; x01])%list.
Proof.
  apply (decode_app "lusab" "babad" "-" [x7f; x00] [x00; x01]);
    [discriminate | reflexivity | reflexivity | reflexivity].
Defined.
